(** * machine_Monitoring: the dashboard helper script [static/js/main.js]

    A shallow embedding of the four functions of the script
    ([formatDate], [getDateRange], [getBottleneckLevelHTML],
    [getBottleneckLevel]) together with the part of the ECMAScript
    runtime they call: IEEE-754 binary64 numbers and their relational
    comparison, the time-value arithmetic of [Date], [toISOString] and
    [String.prototype.split]. Definitions come first, facts after them. *)

From Stdlib Require Import ZArith QArith Qabs Lia List Bool Ascii String.
From Stdlib Require Import Floats.SpecFloat Floats.PrimFloat Floats.FloatOps.

Import ListNotations.
Local Open Scope Z_scope.

(** ** ECMAScript numbers *)

Module JSNumber.

(** The Number type is IEEE-754 binary64: 53 bits of precision,
    infinities at exponent 1024. *)
Definition prec : Z := 53.
Definition emax : Z := 1024.

Definition number : Type := spec_float.

(** Well-formed binary64 values: canonical mantissa, bounded exponent. *)
Definition valid (x : number) : Prop := valid_binary prec emax x = true.

Definition isNaN (x : number) : bool :=
  match x with S754_nan => true | _ => false end.

(** [x > y] evaluates IsLessThan(y, x); an undefined outcome (one operand
    is NaN) makes the operator return false. *)
Definition gt (x y : number) : bool := SFltb y x.

(** [x <= y] evaluates IsLessThan(y, x) and returns false when the outcome
    is true or undefined. *)
Definition le (x y : number) : bool :=
  match SFcompare y x with
  | Some Lt => false
  | Some _ => true
  | None => false
  end.

(** [x === y] on numbers: Number::equal. *)
Definition strict_eq (x y : number) : bool := SFeqb x y.

(** The numeric literals of the script. *)
Definition lit_4_5 : number := S754_finite false 5066549580791808 (-50).
Definition lit_2_5 : number := S754_finite false 5629499534213120 (-51).

(** Literals used as test inputs: the doubles nearest to 4.6, 2.6, 1.0. *)
Definition lit_4_6 : number := S754_finite false 5179139571476070 (-50).
Definition lit_2_6 : number := S754_finite false 5854679515581645 (-51).
Definition lit_1_0 : number := S754_finite false 4503599627370496 (-52).

(** The mathematical value of a finite number, as a rational. *)
Definition Q_of_finite (neg : bool) (m : positive) (e : Z) : Q :=
  let sm := if neg then Z.neg m else Z.pos m in
  match e with
  | Z0 => sm # 1
  | Z.pos p => (sm * 2 ^ Z.pos p) # 1
  | Z.neg p => sm # (2 ^ p)
  end.

(** [exceeds x q]: the value of [x] is strictly above the rational [q].
    NaN has no value and exceeds nothing. *)
Definition exceeds (x : number) (q : Q) : Prop :=
  match x with
  | S754_nan => False
  | S754_infinity neg => neg = false
  | S754_zero _ => (q < 0)%Q
  | S754_finite neg m e => (q < Q_of_finite neg m e)%Q
  end.

(** [at_most x q]: the value of [x] is at most the rational [q]. *)
Definition at_most (x : number) (q : Q) : Prop :=
  match x with
  | S754_nan => False
  | S754_infinity neg => neg = true
  | S754_zero _ => (0 <= q)%Q
  | S754_finite neg m e => (Q_of_finite neg m e <= q)%Q
  end.

(** [at_least x q]: the value of [x] is at least the rational [q]. *)
Definition at_least (x : number) (q : Q) : Prop :=
  match x with
  | S754_nan => False
  | S754_infinity neg => neg = false
  | S754_zero _ => (q <= 0)%Q
  | S754_finite neg m e => (q <= Q_of_finite neg m e)%Q
  end.

(** Every finite binary64 value is an integer multiple of [2^-1074]. *)
Definition ulps (m : positive) (e : Z) : Z := Z.pos m * 2 ^ (e + 1074).

Definition unit_den : positive := (2 ^ 1074)%positive.

(** Above every finite value counted in units of [2^-1074]. *)
Definition huge : Z := 2 ^ 2098.

(** An order-embedding of the non-NaN numbers into the integers: the
    value in units of [2^-1074], the infinities beyond all finite ones. *)
Definition Zkey (x : number) : Z :=
  match x with
  | S754_nan => 0
  | S754_zero _ => 0
  | S754_infinity neg => if neg then - huge else huge
  | S754_finite neg m e => if neg then - ulps m e else ulps m e
  end.

End JSNumber.

(** ** The bottleneck labels of [main.js] *)

Module Bottleneck.
Import JSNumber.
Local Open Scope string_scope.

Definition severe : string := "严重".
Definition moderate : string := "中等".
Definition minor : string := "轻微".

(** [function getBottleneckLevel(score)] *)
Definition getBottleneckLevel (score : number) : string :=
  if gt score lit_4_5 then severe
  else if gt score lit_2_5 then moderate
  else minor.

Definition dquote : string := String "034"%char EmptyString.

Definition span (class text : string) : string :=
  "<span class=" ++ dquote ++ class ++ dquote ++ ">" ++ text ++ "</span>".

Definition html_severe : string := Eval cbv in span "text-danger" "严重".
Definition html_moderate : string := Eval cbv in span "text-warning" "中等".
Definition html_minor : string := Eval cbv in span "text-success" "轻微".

(** [function getBottleneckLevelHTML(score)] *)
Definition getBottleneckLevelHTML (score : number) : string :=
  if gt score lit_4_5 then html_severe
  else if gt score lit_2_5 then html_moderate
  else html_minor.

(** The order of the labels: minor < moderate < severe. *)
Definition severity (label : string) : nat :=
  if String.eqb label severe then 2
  else if String.eqb label moderate then 1
  else 0.

(** Reading a rendered label back: the part of a string after the first
    occurrence of a character, and the part before it. *)
Fixpoint after (c : ascii) (s : string) : string :=
  match s with
  | EmptyString => EmptyString
  | String a rest => if Ascii.eqb a c then rest else after c rest
  end.

Fixpoint before (c : ascii) (s : string) : string :=
  match s with
  | EmptyString => EmptyString
  | String a rest => if Ascii.eqb a c then EmptyString else String a (before c rest)
  end.

(** The text content of a single element, and the value of its first
    quoted attribute. *)
Definition innerText (html : string) : string := before "<" (after ">" html).
Definition classAttr (html : string) : string := before "034" (after "034" html).

End Bottleneck.

(** ** Outcomes, completions and values *)

Module Outcome.

(** An evaluation either returns normally or fails with an error. *)
Inductive outcome (E A : Type) : Type :=
| Normal (a : A)
| Throw (e : E).
Arguments Normal {E A} a.
Arguments Throw {E A} e.

Definition bind {E A B : Type} (c : outcome E A) (k : A -> outcome E B) : outcome E B :=
  match c with
  | Normal a => k a
  | Throw e => Throw e
  end.

End Outcome.

Notation "x <- c ;; k" := (Outcome.bind c (fun x => k))
  (at level 61, c at next level, right associativity).

Module JSValue.
Export Outcome.

Inductive error : Type := RangeError | TypeError.

(** A completion: a normal return or a thrown exception. *)
Definition completion (A : Type) : Type := outcome error A.

(** The values that the script puts into its result object. *)
Inductive value : Type :=
| VUndefined
| VString (s : string).

(** An object literal: its own properties in creation order. *)
Definition object : Type := list (string * value).

(** [arr[i]] on an array of strings. *)
Definition index (arr : list string) (i : nat) : value :=
  match nth_error arr i with
  | Some s => VString s
  | None => VUndefined
  end.

(** [String.prototype.split] with a separator of one character. *)
Fixpoint split (sep : ascii) (s : string) : list string :=
  match s with
  | EmptyString => [EmptyString]
  | String c rest =>
      if Ascii.eqb c sep then EmptyString :: split sep rest
      else match split sep rest with
           | piece :: pieces => String c piece :: pieces
           | [] => [String c EmptyString]
           end
  end.

(** [lacks c s]: the character [c] does not occur in [s]. *)
Fixpoint lacks (c : ascii) (s : string) : bool :=
  match s with
  | EmptyString => true
  | String a rest => negb (Ascii.eqb a c) && lacks c rest
  end.

End JSValue.

(** ** Time values and the [Date] methods used by the script *)

Module JSDate.
Import JSValue.

Definition msPerDay : Z := 86400000.
Definition msPerHour : Z := 3600000.
Definition msPerMinute : Z := 60000.
Definition msPerSecond : Z := 1000.

Definition Day (t : Z) : Z := t / msPerDay.
Definition TimeWithinDay (t : Z) : Z := t mod msPerDay.

Definition DaysInYear (y : Z) : Z :=
  if negb (y mod 4 =? 0) then 365
  else if negb (y mod 100 =? 0) then 366
  else if negb (y mod 400 =? 0) then 365
  else 366.

Definition DayFromYear (y : Z) : Z :=
  365 * (y - 1970) + (y - 1969) / 4 - (y - 1901) / 100 + (y - 1601) / 400.

Definition TimeFromYear (y : Z) : Z := msPerDay * DayFromYear y.

(** The year containing day number [d]: an estimate from the mean length
    of a Gregorian year, corrected by at most one. *)
Definition YearFromDay (d : Z) : Z :=
  let y := 1970 + (400 * d) / 146097 in
  if d <? DayFromYear y then y - 1
  else if DayFromYear (y + 1) <=? d then y + 1
  else y.

(** The largest [y] with [TimeFromYear y <= t]. *)
Definition YearFromTime (t : Z) : Z := YearFromDay (Day t).

Definition InLeapYear (t : Z) : Z :=
  if DaysInYear (YearFromTime t) =? 366 then 1 else 0.

Definition DayWithinYear (t : Z) : Z := Day t - DayFromYear (YearFromTime t).

(** The month (0..11) of day [d] of a year; [leap] is 1 in a leap year. *)
Definition MonthOfDay (d leap : Z) : Z :=
  if d <? 31 then 0
  else if d <? 59 + leap then 1
  else if d <? 90 + leap then 2
  else if d <? 120 + leap then 3
  else if d <? 151 + leap then 4
  else if d <? 181 + leap then 5
  else if d <? 212 + leap then 6
  else if d <? 243 + leap then 7
  else if d <? 273 + leap then 8
  else if d <? 304 + leap then 9
  else if d <? 334 + leap then 10
  else 11.

Definition MonthFromTime (t : Z) : Z := MonthOfDay (DayWithinYear t) (InLeapYear t).

Definition DateFromTime (t : Z) : Z :=
  let d := DayWithinYear t in
  let leap := InLeapYear t in
  match MonthFromTime t with
  | 0 => d + 1
  | 1 => d - 30
  | 2 => d - 58 - leap
  | 3 => d - 89 - leap
  | 4 => d - 119 - leap
  | 5 => d - 150 - leap
  | 6 => d - 180 - leap
  | 7 => d - 211 - leap
  | 8 => d - 242 - leap
  | 9 => d - 272 - leap
  | 10 => d - 303 - leap
  | _ => d - 333 - leap
  end.

Definition HourFromTime (t : Z) : Z := (t / msPerHour) mod 24.
Definition MinFromTime (t : Z) : Z := (t / msPerMinute) mod 60.
Definition SecFromTime (t : Z) : Z := (t / msPerSecond) mod 60.
Definition msFromTime (t : Z) : Z := t mod msPerSecond.

(** Day number, within its year, of the first day of month [mn] (0..11). *)
Definition FirstDayOfMonth (leap mn : Z) : Z :=
  match mn with
  | 0 => 0
  | 1 => 31
  | 2 => 59 + leap
  | 3 => 90 + leap
  | 4 => 120 + leap
  | 5 => 151 + leap
  | 6 => 181 + leap
  | 7 => 212 + leap
  | 8 => 243 + leap
  | 9 => 273 + leap
  | 10 => 304 + leap
  | _ => 334 + leap
  end.

(** MakeDay on integral arguments: the day number of the first day of
    month [month mod 12] of year [year + floor(month / 12)], moved by
    [date - 1] days. *)
Definition MakeDay (year month date : Z) : Z :=
  let ym := year + month / 12 in
  let mn := month mod 12 in
  let leap := if DaysInYear ym =? 366 then 1 else 0 in
  DayFromYear ym + FirstDayOfMonth leap mn + date - 1.

Definition MakeDate (day time : Z) : Z := day * msPerDay + time.

(** A time value: an integral number of milliseconds since the epoch, or
    NaN ([None]), the value of an invalid Date. *)
Definition time_value : Type := option Z.

Definition maxTime : Z := 8640000000000000.

Definition TimeClip (t : Z) : time_value :=
  if maxTime <? Z.abs t then None else Some t.

(** What the host environment supplies: the offset of local time, asked
    either at a UTC instant or at a local time, and the system clock as
    the sequence of its readings. *)
Record Host : Type := mkHost {
  LocalTZA : Z -> bool -> Z;
  clock : nat -> Z
}.

Definition LocalTime (h : Host) (t : Z) : Z := t + LocalTZA h t true.
Definition UTC (h : Host) (t : Z) : Z := t - LocalTZA h t false.

(** [new Date()]: a Date holding the next reading of the clock; the state
    is the number of readings taken so far. *)
Definition newDate (h : Host) (reads : nat) : time_value * nat :=
  (Some (clock h reads), S reads).

(** [Date.prototype.getDate]; the result is an integral Number or NaN. *)
Definition getDate (h : Host) (tv : time_value) : option Z :=
  match tv with
  | None => None
  | Some t => Some (DateFromTime (LocalTime h t))
  end.

(** Number subtraction on integral Numbers and NaN. The Numbers that flow
    from [getDate] through the subtraction into [setDate] are integers,
    which binary64 represents exactly below [2^53]; they are kept as
    integers here. *)
Definition sub (x : option Z) (y : Z) : option Z :=
  match x with
  | None => None
  | Some a => Some (a - y)
  end.

(** [Date.prototype.setDate]: the new [[DateValue]] of the receiver. *)
Definition setDate (h : Host) (tv : time_value) (date : option Z) : time_value :=
  match tv, date with
  | Some t0, Some dt =>
      let t := LocalTime h t0 in
      let newDate :=
        MakeDate (MakeDay (YearFromTime t) (MonthFromTime t) dt) (TimeWithinDay t) in
      TimeClip (UTC h newDate)
  | _, _ => None
  end.

Local Open Scope string_scope.

Definition digit (n : Z) : ascii := ascii_of_N (48 + Z.to_N n).

(** The [width] low decimal digits of [n], most significant first. *)
Fixpoint pad (width : nat) (n : Z) : string :=
  match width with
  | O => ""
  | S w => pad w (n / 10) ++ String (digit (n mod 10)) ""
  end.

(** Reading a string of decimal digits back as a number. *)
Definition digit_value (c : ascii) : Z := Z.of_N (N_of_ascii c) - 48.

Fixpoint read_decimal_from (acc : Z) (s : string) : Z :=
  match s with
  | "" => acc
  | String c rest => read_decimal_from (10 * acc + digit_value c) rest
  end.

Definition read_decimal (s : string) : Z := read_decimal_from 0 s.

(** Years 0 to 9999 print with four digits, others with a sign and six. *)
Definition YearString (y : Z) : string :=
  if ((0 <=? y) && (y <=? 9999))%Z then pad 4 y
  else if (0 <=? y)%Z then "+" ++ pad 6 y
  else "-" ++ pad 6 (- y).

Definition DateString (t : Z) : string :=
  YearString (YearFromTime t) ++ "-" ++ pad 2 (MonthFromTime t + 1)
    ++ "-" ++ pad 2 (DateFromTime t).

Definition TimeString (t : Z) : string :=
  pad 2 (HourFromTime t) ++ ":" ++ pad 2 (MinFromTime t) ++ ":"
    ++ pad 2 (SecFromTime t) ++ "." ++ pad 3 (msFromTime t) ++ "Z".

(** [Date.prototype.toISOString]: throws a RangeError on an invalid Date. *)
Definition toISOString (tv : time_value) : completion string :=
  match tv with
  | None => Throw RangeError
  | Some t => Normal (DateString t ++ "T" ++ TimeString t)
  end.

End JSDate.

(** ** The date helpers of [main.js] *)

Module Script.
Import JSValue JSDate.
Local Open Scope string_scope.

(** [function formatDate(date)] *)
Definition formatDate (date : time_value) : completion value :=
  iso <- toISOString date ;;
  Normal (index (split "T" iso) 0).

(** The default value of the parameter; [None] is an omitted argument. *)
Definition days_or_default (days : option Z) : Z :=
  match days with
  | Some d => d
  | None => 30
  end.

(** [function getDateRange(days = 30)], for an integral [days]. The two
    Dates are created one after the other, each from its own reading of
    the clock; [startDate] is then mutated by [setDate]. *)
Definition getDateRange (h : Host) (days : option Z) (reads : nat)
  : completion object * nat :=
  let days := days_or_default days in
  let '(endDate, reads) := newDate h reads in
  let '(startDate, reads) := newDate h reads in
  let startDate := setDate h startDate (sub (getDate h startDate) days) in
  (start_time <- formatDate startDate ;;
   end_time <- formatDate endDate ;;
   Normal [("start_time", start_time); ("end_time", end_time)],
   reads).

(** The year, month (1..12) and day read from the character positions of
    a YYYY-MM-DD string. *)
Definition date_of (s : string) : Z * Z * Z :=
  (read_decimal (substring 0 4 s),
   read_decimal (substring 5 2 s),
   read_decimal (substring 8 2 s)).

(** [isYMD s t]: [s] is the ten-character string YYYY-MM-DD of the UTC
    calendar date of the time value [t]. *)
Definition isYMD (s : string) (t : Z) : Prop :=
  s = pad 4 (YearFromTime t) ++ "-" ++ pad 2 (MonthFromTime t + 1) ++ "-"
        ++ pad 2 (DateFromTime t) /\
  String.length s = 10%nat /\
  lacks "T" s = true /\
  date_of s = (YearFromTime t, MonthFromTime t + 1, DateFromTime t).

(** Sample hosts: a clock stopped at [t] in a zone on UTC, and in a zone
    that was one hour ahead of UTC until 2024-10-27T01:00Z and on UTC
    afterwards. *)
Definition utc_host (t : Z) : Host := mkHost (fun _ _ => 0%Z) (fun _ => t).

Definition london_host (t : Z) : Host :=
  mkHost (fun u _ => if (u <? 1729990800000)%Z then 3600000%Z else 0%Z) (fun _ => t).

(** A clock stopped at [t] in a zone eight hours ahead of UTC. *)
Definition shanghai_host (t : Z) : Host := mkHost (fun _ _ => 28800000%Z) (fun _ => t).

End Script.

(** ** The Metric Engine

    The engine that computes the efficiency metrics is not part of the
    script; it is modelled from section 4.2 of the specification, over
    exact rationals. *)

Module MetricEngine.
Export Outcome.
Local Open Scope Q_scope.

(** Modelled from the spec: the error taxonomy of section 7, raised by
    the engine that is missing from the sources. *)
Inductive MetricError : Type :=
| SchemaMismatch
| InsufficientData
| ImputationExhausted.

Definition result (A : Type) : Type := outcome MetricError A.

(** Modelled from the spec: the totals of the normalized records of one
    equipment unit over one window, the input of the missing engine. *)
Record WindowData : Type := mkWindowData {
  record_count : nat;
  planned_production_time : Q;
  actual_run_time : Q;
  ideal_cycle_time : Q;
  total_count : Q;
  good_count : Q;
  total_calendar_time : Q
}.

(** Modelled from the spec: the MetricResult of the missing engine,
    without the composite efficiency, whose sub-scores are left open. *)
Record MetricResult : Type := mkMetricResult {
  availability : Q;
  performance : Q;
  quality : Q;
  oee : Q;
  teep : Q
}.

(** Modelled from the spec: every division of the missing engine guards
    its denominator, and a zero denominator is InsufficientData. *)
Definition guarded_div (n d : Q) : result Q :=
  if Qeq_bool d 0 then Throw InsufficientData else Normal (n / d).

(** Modelled from the spec: clamping of a ratio to the interval from 0
    to 1 in the missing engine. *)
Definition clamp01 (q : Q) : Q :=
  if Qle_bool q 0 then 0 else if Qle_bool 1 q then 1 else q.

(** Modelled from the spec: availability of the missing engine, actual
    run time over planned production time, clamped; InsufficientData
    when the planned time is zero or no record falls in the window. *)
Definition compute_availability (w : WindowData) : result Q :=
  if Nat.eqb (record_count w) 0 then Throw InsufficientData
  else r <- guarded_div (actual_run_time w) (planned_production_time w) ;;
       Normal (clamp01 r).

(** Modelled from the spec: performance of the missing engine, ideal
    cycle time times total count over actual run time, clamped. *)
Definition compute_performance (w : WindowData) : result Q :=
  r <- guarded_div (ideal_cycle_time w * total_count w) (actual_run_time w) ;;
  Normal (clamp01 r).

(** Modelled from the spec: quality of the missing engine, good count
    over total count; InsufficientData when the total count is zero. *)
Definition compute_quality (w : WindowData) : result Q :=
  guarded_div (good_count w) (total_count w).

(** Modelled from the spec: utilization of the missing engine, planned
    production time over total calendar time of the window. *)
Definition compute_utilization (w : WindowData) : result Q :=
  guarded_div (planned_production_time w) (total_calendar_time w).

(** Modelled from the spec: the MetricResult computed by the missing
    engine for one window; oee is the product of the three ratios and
    teep is oee times utilization. *)
Definition compute_metrics (w : WindowData) : result MetricResult :=
  a <- compute_availability w ;;
  p <- compute_performance w ;;
  q <- compute_quality w ;;
  u <- compute_utilization w ;;
  Normal (mkMetricResult a p q (a * p * q) (a * p * q * u)).

(** Modelled from the spec: the tolerance of the testable properties. *)
Definition tolerance : Q := 1 # 1000000000.

(** The equipment record of the example in section 8, over a window of
    one day of 1440 minutes. *)
Definition example_window : WindowData :=
  mkWindowData 1 480 400 1 350 330 1440.

End MetricEngine.

(** ** More of the runtime: month lengths, MakeTime, [Array.prototype.join] *)

Module Runtime.
Import JSValue JSDate.

(** The number of days of month [mn] (0..11); [leap] is 1 in a leap year. *)
Definition DaysInMonth (leap mn : Z) : Z :=
  match mn with
  | 1 => 28 + leap
  | 3 | 5 | 8 | 10 => 30
  | _ => 31
  end.

Definition LeapOfYear (y : Z) : Z := if DaysInYear y =? 366 then 1 else 0.

(** MakeTime on integral arguments. *)
Definition MakeTime (hour min sec ms : Z) : Z :=
  hour * msPerHour + min * msPerMinute + sec * msPerSecond + ms.

Local Open Scope string_scope.

(** [Array.prototype.join] on an array of strings, with a separator of one
    character. *)
Fixpoint join (sep : ascii) (arr : list string) : string :=
  match arr with
  | [] => ""
  | [piece] => piece
  | piece :: rest => piece ++ String sep (join sep rest)
  end.

(** The number of occurrences of a character in a string. *)
Fixpoint occurrences (c : ascii) (s : string) : nat :=
  match s with
  | EmptyString => O
  | String a rest => if Ascii.eqb a c then S (occurrences c rest) else occurrences c rest
  end.

End Runtime.

(** ** The navigation handler of [main.js]

    The document is seen as the sequence of its elements in tree order;
    of an element, the token set of its class attribute and its href
    attribute as written. The path name is the path of an http(s) URL as
    the URL parser serializes it: it holds no quotation mark, backslash or
    control character, so that the quoted string of the selector denotes
    the path itself. On other strings the handler is not modelled. Class
    names are compared exactly, as in a document in no-quirks mode. *)

Module Dom.
Local Open Scope string_scope.

Record element : Type := mkElement {
  classes : list string;
  href : option string
}.

Definition document : Type := list element.

(** [DOMTokenList.contains] *)
Definition contains (tokens : list string) (token : string) : bool :=
  existsb (String.eqb token) tokens.

(** [DOMTokenList.add] with one token: appended to the ordered set unless
    already in it. *)
Definition classList_add (tokens : list string) (token : string) : list string :=
  if contains tokens token then tokens else tokens ++ [token].

(** Characters that end or escape a quoted string of a selector. *)
Definition plain_char (c : ascii) : bool :=
  negb (Ascii.eqb c "034") && negb (Ascii.eqb c "\") && (32 <=? N_of_ascii c)%N.

Fixpoint plain (path : string) : bool :=
  match path with
  | EmptyString => true
  | String c rest => plain_char c && plain rest
  end.

(** Whether an element matches [.nav-link[href="path"]]. *)
Definition selects (path : string) (e : element) : bool :=
  contains (classes e) "nav-link" &&
  match href e with
  | Some v => String.eqb v path
  | None => false
  end.

(** [document.querySelector]: the position of the first element, in tree
    order, that matches. *)
Fixpoint querySelector (path : string) (doc : document) : option nat :=
  match doc with
  | [] => None
  | e :: rest =>
      if selects path e then Some O
      else match querySelector path rest with
           | Some i => Some (S i)
           | None => None
           end
  end.

(** The element after [classList.add('active')]. *)
Definition add_active (e : element) : element :=
  mkElement (classList_add (classes e) "active") (href e).

Fixpoint update (i : nat) (f : element -> element) (doc : document) : document :=
  match doc, i with
  | [], _ => []
  | e :: rest, O => f e :: rest
  | e :: rest, S j => e :: update j f rest
  end.

(** The listener registered for DOMContentLoaded, as a function of
    [window.location.pathname] and the document; [None] on a path name
    outside the model. *)
Definition onDOMContentLoaded (currentPath : string) (doc : document) : option document :=
  if plain currentPath then
    Some match querySelector currentPath doc with
         | Some i => update i add_active doc
         | None => doc
         end
  else None.

End Dom.

(** ** Comparison of binary64 values agrees with the order of their values *)

Module NumberOrder.
Import JSNumber.

Lemma digits2_pos_bounds (m : positive) :
  2 ^ (Z.pos (digits2_pos m) - 1) <= Z.pos m < 2 ^ Z.pos (digits2_pos m).
Proof.
  induction m as [m IH | m IH | ]; simpl digits2_pos.
  - rewrite Pos2Z.inj_succ.
    replace (Z.succ (Z.pos (digits2_pos m)) - 1) with (Z.succ (Z.pos (digits2_pos m) - 1)) by lia.
    rewrite !Z.pow_succ_r by lia. lia.
  - rewrite Pos2Z.inj_succ.
    replace (Z.succ (Z.pos (digits2_pos m)) - 1) with (Z.succ (Z.pos (digits2_pos m) - 1)) by lia.
    rewrite !Z.pow_succ_r by lia. lia.
  - simpl. lia.
Qed.

Lemma bounded_inv (m : positive) (e : Z) :
  bounded prec emax m e = true ->
  -1074 <= e <= 971 /\ Z.pos m < 2 ^ 53 /\ (-1074 < e -> 2 ^ 52 <= Z.pos m).
Proof.
  unfold bounded, canonical_mantissa, fexp, emin, prec, emax.
  intros H. apply andb_true_iff in H. destruct H as [Hc He].
  apply Z.eqb_eq in Hc. apply Z.leb_le in He.
  pose proof (digits2_pos_bounds m) as [Hlo Hhi].
  set (d := Z.pos (digits2_pos m)) in *.
  assert (Hd : 0 < d) by (unfold d; lia).
  assert (Hd53 : d <= 53) by lia.
  split; [lia|]. split.
  - apply Z.lt_le_trans with (1 := Hhi). apply Z.pow_le_mono_r; lia.
  - intros Hgt. assert (d = 53) by lia.
    replace 52 with (d - 1) by lia. exact Hlo.
Qed.

Lemma ulps_pos (m : positive) (e : Z) : -1074 <= e -> 0 < ulps m e.
Proof.
  intros He. unfold ulps. apply Z.mul_pos_pos; [lia|]. apply Z.pow_pos_nonneg; lia.
Qed.

Lemma ulps_lt_huge (m : positive) (e : Z) :
  bounded prec emax m e = true -> ulps m e < huge.
Proof.
  intros H. apply bounded_inv in H. destruct H as [He [Hm _]].
  unfold ulps, huge.
  change 2098 with (53 + 2045). rewrite (Z.pow_add_r 2 53 2045) by lia.
  assert (0 < 2 ^ (e + 1074)) by (apply Z.pow_pos_nonneg; lia).
  assert (2 ^ (e + 1074) <= 2 ^ 2045) by (apply Z.pow_le_mono_r; lia).
  apply Z.lt_le_trans with (2 ^ 53 * 2 ^ (e + 1074)).
  - apply Z.mul_lt_mono_pos_r; assumption.
  - apply Z.mul_le_mono_nonneg_l; [|assumption]. apply Z.pow_nonneg; lia.
Qed.

(** A canonical mantissa at a smaller exponent denotes a smaller value. *)
Lemma ulps_lt_exp (m1 m2 : positive) (e1 e2 : Z) :
  bounded prec emax m1 e1 = true -> bounded prec emax m2 e2 = true ->
  e1 < e2 -> ulps m1 e1 < ulps m2 e2.
Proof.
  intros H1 H2 Hlt.
  apply bounded_inv in H1. destruct H1 as [He1 [Hm1 _]].
  apply bounded_inv in H2. destruct H2 as [He2 [_ Hm2]].
  specialize (Hm2 ltac:(lia)).
  unfold ulps.
  assert (Hp1 : 0 < 2 ^ (e1 + 1074)) by (apply Z.pow_pos_nonneg; lia).
  assert (Hstep : 2 * 2 ^ (e1 + 1074) <= 2 ^ (e2 + 1074)).
  { rewrite <- Z.pow_succ_r by lia. apply Z.pow_le_mono_r; lia. }
  apply Z.lt_le_trans with (2 ^ 53 * 2 ^ (e1 + 1074)).
  - apply Z.mul_lt_mono_pos_r; assumption.
  - replace (2 ^ 53) with (2 ^ 52 * 2) by reflexivity.
    rewrite <- Z.mul_assoc.
    apply Z.le_trans with (2 ^ 52 * 2 ^ (e2 + 1074)).
    + apply Z.mul_le_mono_nonneg_l; [|assumption]. apply Z.pow_nonneg; lia.
    + apply Z.mul_le_mono_nonneg_r; [|assumption]. apply Z.pow_nonneg; lia.
Qed.

Lemma ulps_compare (m1 m2 : positive) (e1 e2 : Z) :
  bounded prec emax m1 e1 = true -> bounded prec emax m2 e2 = true ->
  (ulps m1 e1 ?= ulps m2 e2) =
  match e1 ?= e2 with
  | Lt => Lt
  | Gt => Gt
  | Eq => Pos.compare_cont Eq m1 m2
  end.
Proof.
  intros H1 H2. destruct (Z.compare_spec e1 e2) as [Heq | Hlt | Hgt].
  - subst e2. unfold ulps.
    assert (0 < 2 ^ (e1 + 1074)).
    { apply bounded_inv in H1. apply Z.pow_pos_nonneg; lia. }
    rewrite <- Zmult_compare_compat_r by lia. reflexivity.
  - apply Z.compare_lt_iff. apply ulps_lt_exp; assumption.
  - apply Z.compare_gt_iff. apply ulps_lt_exp; assumption.
Qed.

Ltac order_by_lia :=
  f_equal; symmetry;
  first [ apply Z.compare_eq_iff; lia
        | apply Z.compare_lt_iff; lia
        | apply Z.compare_gt_iff; lia ].

(** IEEE comparison of two numbers is the comparison of their keys. *)
Lemma SFcompare_Zkey (x y : number) :
  valid x -> valid y -> isNaN x = false -> isNaN y = false ->
  SFcompare x y = Some (Zkey x ?= Zkey y).
Proof.
  unfold valid.
  assert (Hhuge : 0 < huge) by (unfold huge; apply Z.pow_pos_nonneg; lia).
  destruct x as [sx | sx | | sx mx ex]; destruct y as [sy | sy | | sy my ey];
    simpl valid_binary; simpl isNaN; intros Hx Hy Nx Ny; try discriminate;
    unfold SFcompare, Zkey;
    try (pose proof (ulps_lt_huge mx ex Hx));
    try (pose proof (ulps_lt_huge my ey Hy));
    try (pose proof (ulps_pos mx ex ltac:(apply bounded_inv in Hx; lia)));
    try (pose proof (ulps_pos my ey ltac:(apply bounded_inv in Hy; lia))).
  - reflexivity.
  - destruct sy; order_by_lia.
  - destruct sy; order_by_lia.
  - destruct sx; order_by_lia.
  - destruct sx, sy; order_by_lia.
  - destruct sx, sy; order_by_lia.
  - destruct sx; order_by_lia.
  - destruct sx, sy; order_by_lia.
  - destruct sx, sy; [ | order_by_lia | order_by_lia | ].
    + f_equal. rewrite Z.compare_opp.
      rewrite (ulps_compare my mx ey ex Hy Hx).
      rewrite (Z.compare_antisym ey ex).
      rewrite (Pos.compare_cont_antisym).
      destruct (ey ?= ex); reflexivity.
    + f_equal. symmetry. apply ulps_compare; assumption.
Qed.

Lemma gt_Zkey (x y : number) :
  valid x -> valid y -> isNaN x = false -> isNaN y = false ->
  gt x y = (Zkey y <? Zkey x).
Proof.
  intros Hx Hy Nx Ny. unfold gt, SFltb.
  rewrite (SFcompare_Zkey y x Hy Hx Ny Nx). unfold Z.ltb.
  destruct (Zkey y ?= Zkey x); reflexivity.
Qed.

Lemma le_Zkey (x y : number) :
  valid x -> valid y -> isNaN x = false -> isNaN y = false ->
  le x y = (Zkey x <=? Zkey y).
Proof.
  intros Hx Hy Nx Ny. unfold le.
  rewrite (SFcompare_Zkey y x Hy Hx Ny Nx). rewrite Z.compare_antisym. unfold Z.leb.
  destruct (Zkey x ?= Zkey y); reflexivity.
Qed.

Lemma gt_NaN_l (y : number) : gt S754_nan y = false.
Proof. unfold gt, SFltb. destruct y; reflexivity. Qed.

Lemma le_NaN_l (y : number) : le S754_nan y = false.
Proof. unfold le. destruct y; reflexivity. Qed.

Lemma le_NaN_r (x : number) : le x S754_nan = false.
Proof. unfold le. reflexivity. Qed.

(** *** Keys and rational values *)

Lemma unit_den_Z : Z.pos unit_den = 2 ^ 1074.
Proof. unfold unit_den. rewrite Pos2Z.inj_pow. reflexivity. Qed.

Lemma Q_of_finite_key (neg : bool) (m : positive) (e : Z) :
  -1074 <= e ->
  (Q_of_finite neg m e == Zkey (S754_finite neg m e) # unit_den)%Q.
Proof.
  intros He. unfold Qeq, Q_of_finite, Zkey, ulps.
  destruct e as [ | p | p ]; cbv zeta; cbn [Qnum Qden]; rewrite unit_den_Z.
  - cbn [Z.add]. set (P := 2 ^ 1074). destruct neg; lia.
  - rewrite (Z.pow_add_r 2 (Z.pos p) 1074) by lia.
    set (P := 2 ^ 1074). set (R := 2 ^ Z.pos p). destruct neg; lia.
  - rewrite Pos2Z.inj_pow.
    assert (Hsplit : 2 ^ 1074 = 2 ^ (Z.neg p + 1074) * 2 ^ Z.pos p).
    { rewrite <- Z.pow_add_r by lia. f_equal. lia. }
    rewrite Hsplit at 1.
    set (P := 2 ^ (Z.neg p + 1074)). set (R := 2 ^ Z.pos p).
    change (Z.pos 2 ^ Z.pos p) with R.
    destruct neg.
    + change (Z.neg m) with (- Z.pos m). lia.
    + lia.
Qed.

(** Comparing the value of a number with a rational of moderate size is
    comparing integers. *)
Section AgainstRational.
Variables (a : Z) (b : positive).
Hypothesis a_small : Z.abs a < 2 ^ 1000.

Let a_scaled_lt_huge : Z.abs (a * 2 ^ 1074) < huge.
Proof.
  unfold huge. change 2098 with (1024 + 1074).
  rewrite (Z.pow_add_r 2 1024 1074) by lia. rewrite Z.abs_mul.
  assert (0 < 2 ^ 1074) by (apply Z.pow_pos_nonneg; lia).
  rewrite (Z.abs_eq (2 ^ 1074)) by lia.
  apply Z.mul_lt_mono_pos_r; [assumption|].
  apply Z.lt_trans with (1 := a_small). apply Z.pow_lt_mono_r; lia.
Qed.

Let huge_scaled : huge <= huge * Z.pos b.
Proof.
  assert (0 < huge) by (unfold huge; apply Z.pow_pos_nonneg; lia).
  rewrite <- (Z.mul_1_r huge) at 1. apply Z.mul_le_mono_nonneg_l; lia.
Qed.

Lemma exceeds_Zkey (x : number) :
  valid x -> isNaN x = false ->
  (exceeds x (a # b) <-> a * 2 ^ 1074 < Zkey x * Z.pos b).
Proof.
  pose proof a_scaled_lt_huge as Ha. pose proof huge_scaled as Hh.
  assert (0 < 2 ^ 1074) by (apply Z.pow_pos_nonneg; lia).
  destruct x as [sx | sx | | sx mx ex]; intros Hx Nx; try discriminate;
    unfold exceeds.
  - unfold Qlt, Zkey. cbn [Qnum Qden]. nia.
  - unfold Zkey. destruct sx; split; intros; try discriminate; try reflexivity; lia.
  - assert (He : -1074 <= ex) by (apply bounded_inv in Hx; lia).
    rewrite (Q_of_finite_key sx mx ex He).
    unfold Qlt. cbn [Qnum Qden]. rewrite unit_den_Z. reflexivity.
Qed.

Lemma at_most_Zkey (x : number) :
  valid x -> isNaN x = false ->
  (at_most x (a # b) <-> Zkey x * Z.pos b <= a * 2 ^ 1074).
Proof.
  pose proof a_scaled_lt_huge as Ha. pose proof huge_scaled as Hh.
  assert (0 < 2 ^ 1074) by (apply Z.pow_pos_nonneg; lia).
  destruct x as [sx | sx | | sx mx ex]; intros Hx Nx; try discriminate;
    unfold at_most.
  - unfold Qle, Zkey. cbn [Qnum Qden]. nia.
  - unfold Zkey. destruct sx; split; intros; try discriminate; try reflexivity; lia.
  - assert (He : -1074 <= ex) by (apply bounded_inv in Hx; lia).
    rewrite (Q_of_finite_key sx mx ex He).
    unfold Qle. cbn [Qnum Qden]. rewrite unit_den_Z. reflexivity.
Qed.

Lemma at_least_Zkey (x : number) :
  valid x -> isNaN x = false ->
  (at_least x (a # b) <-> a * 2 ^ 1074 <= Zkey x * Z.pos b).
Proof.
  pose proof a_scaled_lt_huge as Ha. pose proof huge_scaled as Hh.
  assert (0 < 2 ^ 1074) by (apply Z.pow_pos_nonneg; lia).
  destruct x as [sx | sx | | sx mx ex]; intros Hx Nx; try discriminate;
    unfold at_least.
  - unfold Qle, Zkey. cbn [Qnum Qden]. nia.
  - unfold Zkey. destruct sx; split; intros; try discriminate; try reflexivity; lia.
  - assert (He : -1074 <= ex) by (apply bounded_inv in Hx; lia).
    rewrite (Q_of_finite_key sx mx ex He).
    unfold Qle. cbn [Qnum Qden]. rewrite unit_den_Z. reflexivity.
Qed.
End AgainstRational.

(** The literals of the model are the doubles that the decimal
    literals of the script denote. *)
#[warnings="-inexact-float"] Lemma literals_as_written :
  Prim2SF 4.5%float = lit_4_5 /\ Prim2SF 2.5%float = lit_2_5 /\
  Prim2SF 4.6%float = lit_4_6 /\ Prim2SF 2.6%float = lit_2_6 /\
  Prim2SF 1.0%float = lit_1_0.
Proof. repeat split; reflexivity. Qed.

Lemma Zkey_lit_4_5 : Zkey lit_4_5 = 9 * 2 ^ 1073.
Proof. reflexivity. Qed.

Lemma Zkey_lit_2_5 : Zkey lit_2_5 = 5 * 2 ^ 1073.
Proof. reflexivity. Qed.

End NumberOrder.

(** ** Facts about the bottleneck labels *)

Module BottleneckFacts.
Import JSNumber Bottleneck NumberOrder.

Lemma valid_lit_4_5 : valid lit_4_5.
Proof. reflexivity. Qed.

Lemma valid_lit_2_5 : valid lit_2_5.
Proof. reflexivity. Qed.

Lemma pow_1074 : 2 ^ 1074 = 2 * 2 ^ 1073.
Proof. change 1074 with (Z.succ 1073). rewrite Z.pow_succ_r by lia. reflexivity. Qed.

Lemma small_threshold (n : Z) : Z.abs n <= 16 -> Z.abs n < 2 ^ 1000.
Proof.
  intros H. apply Z.le_lt_trans with (1 := H).
  change 16 with (2 ^ 4). apply Z.pow_lt_mono_r; lia.
Qed.

(** The two tests of the script, read on the value of the score. *)
Lemma gt_4_5_exceeds (s : number) :
  valid s -> isNaN s = false -> (gt s lit_4_5 = true <-> exceeds s (9 # 2)).
Proof.
  intros Hs Ns. rewrite (gt_Zkey s lit_4_5 Hs valid_lit_4_5 Ns eq_refl).
  rewrite (exceeds_Zkey 9 2 ltac:(apply small_threshold; lia) s Hs Ns).
  rewrite Z.ltb_lt, Zkey_lit_4_5, pow_1074. set (P := 2 ^ 1073). lia.
Qed.

Lemma gt_4_5_at_most (s : number) :
  valid s -> isNaN s = false -> (gt s lit_4_5 = false <-> at_most s (9 # 2)).
Proof.
  intros Hs Ns. rewrite (gt_Zkey s lit_4_5 Hs valid_lit_4_5 Ns eq_refl).
  rewrite (at_most_Zkey 9 2 ltac:(apply small_threshold; lia) s Hs Ns).
  rewrite Z.ltb_ge, Zkey_lit_4_5, pow_1074. set (P := 2 ^ 1073). lia.
Qed.

Lemma gt_2_5_exceeds (s : number) :
  valid s -> isNaN s = false -> (gt s lit_2_5 = true <-> exceeds s (5 # 2)).
Proof.
  intros Hs Ns. rewrite (gt_Zkey s lit_2_5 Hs valid_lit_2_5 Ns eq_refl).
  rewrite (exceeds_Zkey 5 2 ltac:(apply small_threshold; lia) s Hs Ns).
  rewrite Z.ltb_lt, Zkey_lit_2_5, pow_1074. set (P := 2 ^ 1073). lia.
Qed.

Lemma gt_2_5_at_most (s : number) :
  valid s -> isNaN s = false -> (gt s lit_2_5 = false <-> at_most s (5 # 2)).
Proof.
  intros Hs Ns. rewrite (gt_Zkey s lit_2_5 Hs valid_lit_2_5 Ns eq_refl).
  rewrite (at_most_Zkey 5 2 ltac:(apply small_threshold; lia) s Hs Ns).
  rewrite Z.ltb_ge, Zkey_lit_2_5, pow_1074. set (P := 2 ^ 1073). lia.
Qed.

(** A score above 4.5 is above 2.5. *)
Lemma gt_4_5_gt_2_5 (s : number) :
  valid s -> gt s lit_4_5 = true -> gt s lit_2_5 = true.
Proof.
  intros Hs. destruct (isNaN s) eqn:Ns.
  - destruct s; discriminate.
  - rewrite (gt_Zkey s lit_4_5 Hs valid_lit_4_5 Ns eq_refl).
    rewrite (gt_Zkey s lit_2_5 Hs valid_lit_2_5 Ns eq_refl).
    rewrite !Z.ltb_lt, Zkey_lit_4_5, Zkey_lit_2_5. set (P := 2 ^ 1073).
    assert (0 < P) by (apply Z.pow_pos_nonneg; lia). lia.
Qed.

Lemma labels_distinct : severe <> moderate /\ severe <> minor /\ moderate <> minor.
Proof. repeat split; discriminate. Qed.

(** The label of a score, case by case. *)
Lemma level_cases (s : number) :
  (gt s lit_4_5 = true /\ getBottleneckLevel s = severe) \/
  (gt s lit_4_5 = false /\ gt s lit_2_5 = true /\ getBottleneckLevel s = moderate) \/
  (gt s lit_4_5 = false /\ gt s lit_2_5 = false /\ getBottleneckLevel s = minor).
Proof.
  unfold getBottleneckLevel.
  destruct (gt s lit_4_5); [left; auto|].
  destruct (gt s lit_2_5); [right; left; auto | right; right; auto].
Qed.

(** An invalid score (NaN) fails both tests and is labelled minor. *)
Lemma getBottleneckLevel_NaN : getBottleneckLevel S754_nan = minor.
Proof. reflexivity. Qed.

Lemma severity_level (s : number) :
  severity (getBottleneckLevel s) =
  if gt s lit_4_5 then 2%nat else if gt s lit_2_5 then 1%nat else 0%nat.
Proof.
  unfold getBottleneckLevel.
  destruct (gt s lit_4_5); [reflexivity|]. destruct (gt s lit_2_5); reflexivity.
Qed.

Lemma le_not_NaN (x y : number) : le x y = true -> isNaN x = false /\ isNaN y = false.
Proof.
  destruct x, y; try (split; reflexivity); unfold le; simpl; discriminate.
Qed.

Lemma strict_eq_not_NaN (x y : number) :
  strict_eq x y = true -> isNaN x = false /\ isNaN y = false.
Proof.
  destruct x, y; try (split; reflexivity); unfold strict_eq, SFeqb; simpl; discriminate.
Qed.

Lemma strict_eq_Zkey (x y : number) :
  valid x -> valid y -> strict_eq x y = true -> Zkey x = Zkey y.
Proof.
  intros Hx Hy E. destruct (strict_eq_not_NaN x y E) as [Nx Ny].
  unfold strict_eq, SFeqb in E. rewrite (SFcompare_Zkey x y Hx Hy Nx Ny) in E.
  destruct (Z.compare_spec (Zkey x) (Zkey y)); [assumption | discriminate | discriminate].
Qed.

(** The label of a score that is a number, read on its value. *)
Lemma level_by_value (s : number) :
  valid s -> isNaN s = false ->
  (getBottleneckLevel s = severe <-> exceeds s (9 # 2)) /\
  (getBottleneckLevel s = moderate <-> exceeds s (5 # 2) /\ at_most s (9 # 2)) /\
  (getBottleneckLevel s = minor <-> at_most s (5 # 2)).
Proof.
  intros Hs Ns.
  rewrite <- (gt_4_5_exceeds s Hs Ns), <- (gt_4_5_at_most s Hs Ns).
  rewrite <- (gt_2_5_exceeds s Hs Ns), <- (gt_2_5_at_most s Hs Ns).
  pose proof (gt_4_5_gt_2_5 s Hs) as Himp.
  destruct labels_distinct as [D1 [D2 D3]].
  repeat split;
    destruct (level_cases s) as [[A L] | [[A [B L]] | [A [B L]]]];
    rewrite ?L; try (specialize (Himp A)); intuition congruence.
Qed.

(** C1. For every numeric score (a binary64 value other than NaN),
    [getBottleneckLevel] returns the severe label exactly when the score
    is above 4.5, the moderate label exactly when it is above 2.5 and at
    most 4.5, and the minor label exactly when it is at most 2.5; the
    doubles written 4.6, 2.6 and 1.0 are labelled severe, moderate and
    minor, and the boundary values 4.5 and 2.5 moderate and minor. *)
Theorem getBottleneckLevel_thresholds (s : number) :
  valid s -> isNaN s = false ->
  (getBottleneckLevel s = severe <-> exceeds s (9 # 2)) /\
  (getBottleneckLevel s = moderate <-> exceeds s (5 # 2) /\ at_most s (9 # 2)) /\
  (getBottleneckLevel s = minor <-> at_most s (5 # 2)) /\
  getBottleneckLevel lit_4_6 = severe /\
  getBottleneckLevel lit_2_6 = moderate /\
  getBottleneckLevel lit_1_0 = minor /\
  getBottleneckLevel lit_4_5 = moderate /\
  getBottleneckLevel lit_2_5 = minor.
Proof.
  intros Hs Ns.
  destruct (level_by_value s Hs Ns) as [Hsevere [Hmoderate Hminor]].
  split; [exact Hsevere|]. split; [exact Hmoderate|]. split; [exact Hminor|].
  repeat split; reflexivity.
Qed.

Lemma getBottleneckLevel_thresholds_witness :
  (getBottleneckLevel lit_4_6 = severe <-> exceeds lit_4_6 (9 # 2)) /\
  (getBottleneckLevel lit_4_6 = moderate <->
   exceeds lit_4_6 (5 # 2) /\ at_most lit_4_6 (9 # 2)) /\
  (getBottleneckLevel lit_4_6 = minor <-> at_most lit_4_6 (5 # 2)) /\
  getBottleneckLevel lit_4_6 = severe /\
  getBottleneckLevel lit_2_6 = moderate /\
  getBottleneckLevel lit_1_0 = minor /\
  getBottleneckLevel lit_4_5 = moderate /\
  getBottleneckLevel lit_2_5 = minor.
Proof. exact (getBottleneckLevel_thresholds lit_4_6 eq_refl eq_refl). Defined.

(** C2. Two calls of [getBottleneckLevel] with equal scores return equal
    labels, whether the scores are the same value or are equal under the
    script's own number equality (which identifies +0 and -0). *)
Theorem getBottleneckLevel_deterministic (s1 s2 : number) :
  valid s1 -> valid s2 ->
  s1 = s2 \/ strict_eq s1 s2 = true ->
  getBottleneckLevel s1 = getBottleneckLevel s2.
Proof.
  intros H1 H2 [E | E]; [subst; reflexivity|].
  destruct (strict_eq_not_NaN s1 s2 E) as [N1 N2].
  pose proof (strict_eq_Zkey s1 s2 H1 H2 E) as K.
  unfold getBottleneckLevel.
  rewrite (gt_Zkey s1 lit_4_5 H1 valid_lit_4_5 N1 eq_refl).
  rewrite (gt_Zkey s2 lit_4_5 H2 valid_lit_4_5 N2 eq_refl).
  rewrite (gt_Zkey s1 lit_2_5 H1 valid_lit_2_5 N1 eq_refl).
  rewrite (gt_Zkey s2 lit_2_5 H2 valid_lit_2_5 N2 eq_refl).
  rewrite K. reflexivity.
Qed.

Lemma getBottleneckLevel_deterministic_witness :
  getBottleneckLevel (S754_zero false) = getBottleneckLevel (S754_zero true).
Proof.
  exact (getBottleneckLevel_deterministic (S754_zero false) (S754_zero true)
           eq_refl eq_refl (or_intror eq_refl)).
Defined.

(** C6. For every score the text inside the element returned by
    [getBottleneckLevelHTML] is the label returned by
    [getBottleneckLevel]; the element is a span around that label, and
    its class is text-danger exactly for the severe label, text-warning
    exactly for the moderate one and text-success exactly for the minor
    one. *)
Theorem getBottleneckLevelHTML_agrees (s : number) :
  innerText (getBottleneckLevelHTML s) = getBottleneckLevel s /\
  getBottleneckLevelHTML s =
    span (classAttr (getBottleneckLevelHTML s)) (getBottleneckLevel s) /\
  (classAttr (getBottleneckLevelHTML s) = "text-danger"%string <->
   getBottleneckLevel s = severe) /\
  (classAttr (getBottleneckLevelHTML s) = "text-warning"%string <->
   getBottleneckLevel s = moderate) /\
  (classAttr (getBottleneckLevelHTML s) = "text-success"%string <->
   getBottleneckLevel s = minor).
Proof.
  unfold getBottleneckLevelHTML, getBottleneckLevel.
  destruct (gt s lit_4_5); [|destruct (gt s lit_2_5)];
    repeat split; try reflexivity; intros H; try reflexivity;
    vm_compute in H; discriminate H.
Qed.

Lemma getBottleneckLevelHTML_agrees_witness :
  innerText (getBottleneckLevelHTML lit_2_6) = getBottleneckLevel lit_2_6.
Proof. exact (proj1 (getBottleneckLevelHTML_agrees lit_2_6)). Defined.

(** C9. [getBottleneckLevel] is monotone: when [s1 <= s2] holds for the
    script's comparison, the label of [s1] is at most as severe as the
    label of [s2], in the order minor < moderate < severe. *)
Theorem getBottleneckLevel_monotone (s1 s2 : number) :
  valid s1 -> valid s2 -> le s1 s2 = true ->
  (severity (getBottleneckLevel s1) <= severity (getBottleneckLevel s2))%nat.
Proof.
  intros H1 H2 L. destruct (le_not_NaN s1 s2 L) as [N1 N2].
  rewrite (le_Zkey s1 s2 H1 H2 N1 N2) in L. apply Z.leb_le in L.
  rewrite !severity_level.
  rewrite (gt_Zkey s1 lit_4_5 H1 valid_lit_4_5 N1 eq_refl).
  rewrite (gt_Zkey s2 lit_4_5 H2 valid_lit_4_5 N2 eq_refl).
  rewrite (gt_Zkey s1 lit_2_5 H1 valid_lit_2_5 N1 eq_refl).
  rewrite (gt_Zkey s2 lit_2_5 H2 valid_lit_2_5 N2 eq_refl).
  rewrite Zkey_lit_4_5, Zkey_lit_2_5. set (P := 2 ^ 1073).
  assert (0 < P) by (apply Z.pow_pos_nonneg; lia).
  destruct (Z.ltb_spec (9 * P) (Zkey s1)); destruct (Z.ltb_spec (9 * P) (Zkey s2));
    destruct (Z.ltb_spec (5 * P) (Zkey s1)); destruct (Z.ltb_spec (5 * P) (Zkey s2));
    lia.
Qed.

Lemma getBottleneckLevel_monotone_witness :
  (severity (getBottleneckLevel lit_2_6) <= severity (getBottleneckLevel lit_4_6))%nat.
Proof.
  exact (getBottleneckLevel_monotone lit_2_6 lit_4_6 eq_refl eq_refl eq_refl).
Defined.

(** C10. [getBottleneckLevel] returns one of the three labels for every
    input, also outside the 0 to 5 scale: every score at most 2.5
    (negative ones and negative infinity included) gets the minor label,
    every score above 4.5 (those above 5 and positive infinity included)
    the severe label, and every score between 0 and 1 the minor label. *)
Theorem getBottleneckLevel_total (s : number) :
  (getBottleneckLevel s = severe \/ getBottleneckLevel s = moderate \/
   getBottleneckLevel s = minor) /\
  (valid s -> at_most s (5 # 2) -> getBottleneckLevel s = minor) /\
  (valid s -> exceeds s (9 # 2) -> getBottleneckLevel s = severe) /\
  (valid s -> at_least s 0 -> at_most s 1 -> getBottleneckLevel s = minor).
Proof.
  split.
  { destruct (level_cases s) as [[_ L] | [[_ [_ L]] | [_ [_ L]]]]; auto. }
  assert (Hminor : valid s -> at_most s (5 # 2) -> getBottleneckLevel s = minor).
  { intros Hs Hle. destruct (isNaN s) eqn:Ns; [destruct s; try discriminate; reflexivity|].
    apply (level_by_value s Hs Ns). exact Hle. }
  split; [exact Hminor|]. split.
  - intros Hs Hgt. destruct (isNaN s) eqn:Ns; [destruct s; try discriminate; contradiction|].
    apply (level_by_value s Hs Ns). exact Hgt.
  - intros Hs _ Hle. apply (Hminor Hs).
    destruct s as [sx | sx | | sx mx ex]; unfold at_most in *.
    + unfold Qle; simpl; lia.
    + assumption.
    + assumption.
    + apply Qle_trans with (1 := Hle). unfold Qle; simpl; lia.
Qed.

Lemma getBottleneckLevel_total_witness :
  getBottleneckLevel lit_1_0 = minor.
Proof.
  refine (proj2 (proj2 (proj2 (getBottleneckLevel_total lit_1_0))) eq_refl _ _);
    unfold at_least, at_most, Q_of_finite, Qle; simpl; lia.
Defined.

End BottleneckFacts.

(** ** Facts about the calendar arithmetic *)

Module CalendarFacts.
Import JSDate.

Lemma DaysInYear_cases (y : Z) : DaysInYear y = 365 \/ DaysInYear y = 366.
Proof.
  unfold DaysInYear.
  destruct (y mod 4 =? 0), (y mod 100 =? 0), (y mod 400 =? 0); cbn [negb]; auto.
Qed.

Lemma DayFromYear_succ (y : Z) : DayFromYear (y + 1) = DayFromYear y + DaysInYear y.
Proof.
  unfold DayFromYear, DaysInYear.
  destruct (Z.eqb_spec (y mod 4) 0); destruct (Z.eqb_spec (y mod 100) 0);
    destruct (Z.eqb_spec (y mod 400) 0); cbn [negb];
    Z.div_mod_to_equations; lia.
Qed.

Lemma DayFromYear_lt (y1 y2 : Z) : y1 < y2 -> DayFromYear y1 < DayFromYear y2.
Proof. unfold DayFromYear. intros H. Z.div_mod_to_equations. lia. Qed.

Lemma DayFromYear_le (y1 y2 : Z) : y1 <= y2 -> DayFromYear y1 <= DayFromYear y2.
Proof. unfold DayFromYear. intros H. Z.div_mod_to_equations. lia. Qed.

(** [YearFromDay d] is the year whose days include [d]. *)
Lemma YearFromDay_spec (d : Z) :
  DayFromYear (YearFromDay d) <= d < DayFromYear (YearFromDay d + 1).
Proof.
  unfold YearFromDay. cbv zeta.
  set (y := 1970 + 400 * d / 146097).
  assert (Hlo : DayFromYear (y - 1) <= d).
  { unfold DayFromYear, y. Z.div_mod_to_equations. lia. }
  assert (Hhi : d < DayFromYear (y + 1 + 1)).
  { unfold DayFromYear, y. Z.div_mod_to_equations. lia. }
  destruct (Z.ltb_spec d (DayFromYear y)).
  - replace (y - 1 + 1) with y by lia. lia.
  - destruct (Z.leb_spec (DayFromYear (y + 1)) d); lia.
Qed.

Lemma YearFromDay_unique (d y : Z) :
  DayFromYear y <= d < DayFromYear (y + 1) -> YearFromDay d = y.
Proof.
  intros [Hlo Hhi]. pose proof (YearFromDay_spec d) as [Slo Shi].
  destruct (Z.lt_trichotomy (YearFromDay d) y) as [Hlt | [Heq | Hgt]].
  - pose proof (DayFromYear_le (YearFromDay d + 1) y ltac:(lia)). lia.
  - exact Heq.
  - pose proof (DayFromYear_le (y + 1) (YearFromDay d) ltac:(lia)). lia.
Qed.

Lemma YearFromDay_le (d1 d2 : Z) : d1 <= d2 -> YearFromDay d1 <= YearFromDay d2.
Proof.
  intros H. pose proof (YearFromDay_spec d1) as [L1 H1].
  pose proof (YearFromDay_spec d2) as [L2 H2].
  destruct (Z.le_gt_cases (YearFromDay d1) (YearFromDay d2)) as [ | Hgt]; [assumption|].
  pose proof (DayFromYear_le (YearFromDay d2 + 1) (YearFromDay d1) ltac:(lia)). lia.
Qed.

(** [YearFromTime t] is the largest year that starts no later than [t]. *)
Lemma YearFromTime_spec (t : Z) :
  TimeFromYear (YearFromTime t) <= t /\
  forall y, TimeFromYear y <= t -> y <= YearFromTime t.
Proof.
  unfold TimeFromYear, YearFromTime, Day.
  pose proof (YearFromDay_spec (t / msPerDay)) as [Lo Hi].
  unfold msPerDay in *. split.
  - Z.div_mod_to_equations. lia.
  - intros y Hy.
    destruct (Z.le_gt_cases y (YearFromDay (t / 86400000))) as [ | Hgt]; [assumption|].
    pose proof (DayFromYear_le (YearFromDay (t / 86400000) + 1) y ltac:(lia)).
    Z.div_mod_to_equations. lia.
Qed.

Lemma InLeapYear_DaysInYear (t : Z) : DaysInYear (YearFromTime t) = 365 + InLeapYear t.
Proof.
  unfold InLeapYear. destruct (DaysInYear_cases (YearFromTime t)) as [E | E];
    rewrite E; reflexivity.
Qed.

Lemma InLeapYear_cases (t : Z) : InLeapYear t = 0 \/ InLeapYear t = 1.
Proof. unfold InLeapYear. destruct (DaysInYear (YearFromTime t) =? 366); auto. Qed.

Lemma DayWithinYear_range (t : Z) : 0 <= DayWithinYear t < 365 + InLeapYear t.
Proof.
  rewrite <- InLeapYear_DaysInYear. unfold DayWithinYear, YearFromTime.
  pose proof (YearFromDay_spec (Day t)) as [Lo Hi].
  rewrite DayFromYear_succ in Hi. lia.
Qed.

Ltac month_cases :=
  repeat match goal with
         | |- context [?a <? ?b] => destruct (Z.ltb_spec a b)
         end.

Lemma MonthFromTime_range (t : Z) : 0 <= MonthFromTime t <= 11.
Proof. unfold MonthFromTime, MonthOfDay. cbv zeta. month_cases; lia. Qed.

(** Day of the year = first day of the month + day of the month - 1. *)
Lemma DayWithinYear_split (t : Z) :
  DayWithinYear t = FirstDayOfMonth (InLeapYear t) (MonthFromTime t) + DateFromTime t - 1.
Proof.
  unfold DateFromTime, MonthFromTime, MonthOfDay. cbv zeta.
  month_cases; cbv iota beta; cbn [FirstDayOfMonth]; lia.
Qed.

Lemma DateFromTime_range (t : Z) : 1 <= DateFromTime t <= 31.
Proof.
  pose proof (DayWithinYear_range t) as R. pose proof (InLeapYear_cases t) as L.
  unfold DateFromTime, MonthFromTime, MonthOfDay. cbv zeta.
  month_cases; cbv iota beta; lia.
Qed.

(** MakeDay inverts the decomposition of a time value into year, month
    and day of the month. *)
Lemma MakeDay_from_time (t dt : Z) :
  MakeDay (YearFromTime t) (MonthFromTime t) dt = Day t + dt - DateFromTime t.
Proof.
  unfold MakeDay. cbv zeta.
  pose proof (MonthFromTime_range t) as M.
  rewrite (Z.div_small (MonthFromTime t) 12) by lia.
  rewrite (Z.mod_small (MonthFromTime t) 12) by lia.
  rewrite Z.add_0_r. fold (InLeapYear t).
  pose proof (DayWithinYear_split t) as S. unfold DayWithinYear in S. lia.
Qed.

Lemma MakeDay_roundtrip (t : Z) :
  MakeDay (YearFromTime t) (MonthFromTime t) (DateFromTime t) = Day t.
Proof. rewrite MakeDay_from_time. lia. Qed.

Lemma MakeDate_Day (t : Z) : MakeDate (Day t) (TimeWithinDay t) = t.
Proof.
  unfold MakeDate, Day, TimeWithinDay, msPerDay. Z.div_mod_to_equations. lia.
Qed.

Lemma Day_shift (t k : Z) : Day (t - k * msPerDay) = Day t - k.
Proof.
  unfold Day, msPerDay. Z.div_mod_to_equations. lia.
Qed.

Lemma TimeWithinDay_shift (t k : Z) : TimeWithinDay (t - k * msPerDay) = TimeWithinDay t.
Proof.
  unfold TimeWithinDay, msPerDay. Z.div_mod_to_equations. lia.
Qed.

(** A test that succeeds on each of the twelve month numbers succeeds on
    any of them. *)
Lemma month_by_month (f : Z -> bool) (mn : Z) :
  0 <= mn < 12 -> forallb f (map Z.of_nat (seq 0 12)) = true -> f mn = true.
Proof.
  intros H All. rewrite forallb_forall in All. apply All.
  apply in_map_iff. exists (Z.to_nat mn). split; [lia|].
  apply in_seq. lia.
Qed.

Lemma Day_of_day_start (d : Z) : Day (d * msPerDay) = d.
Proof. unfold Day, msPerDay. apply Z.div_mul. lia. Qed.

(** MakeDay returns the day number of a day whose year, month and day of
    the month are the ones asked for. *)
Lemma MakeDay_spec (year month : Z) :
  let t := MakeDay year month 1 * msPerDay in
  YearFromTime t = year + month / 12 /\
  MonthFromTime t = month mod 12 /\
  DateFromTime t = 1.
Proof.
  cbv zeta. set (t := MakeDay year month 1 * msPerDay).
  set (ym := year + month / 12). set (mn := month mod 12).
  set (leap := if DaysInYear ym =? 366 then 1 else 0).
  assert (Hd : Day t = DayFromYear ym + FirstDayOfMonth leap mn).
  { unfold t. rewrite Day_of_day_start. unfold MakeDay. cbv zeta.
    fold ym mn leap. lia. }
  assert (Hmn : 0 <= mn < 12) by (unfold mn; apply Z.mod_pos_bound; lia).
  assert (Hleap : (leap = 0 /\ DaysInYear ym = 365) \/ (leap = 1 /\ DaysInYear ym = 366)).
  { unfold leap. destruct (DaysInYear_cases ym) as [E | E]; rewrite E; auto. }
  assert (HF : 0 <= FirstDayOfMonth leap mn < 365).
  { pose proof (month_by_month
                  (fun m => (0 <=? FirstDayOfMonth leap m) && (FirstDayOfMonth leap m <? 365))
                  mn Hmn) as T.
    cbv beta in T.
    destruct Hleap as [[L _] | [L _]]; rewrite L in *;
      specialize (T eq_refl); apply andb_true_iff in T; lia. }
  assert (HY : YearFromTime t = ym).
  { unfold YearFromTime. apply YearFromDay_unique. rewrite DayFromYear_succ. lia. }
  assert (HL : InLeapYear t = leap).
  { unfold InLeapYear. rewrite HY. reflexivity. }
  assert (HW : DayWithinYear t = FirstDayOfMonth leap mn).
  { unfold DayWithinYear. rewrite HY. lia. }
  split; [exact HY|].
  assert (HM : MonthFromTime t = mn).
  { unfold MonthFromTime. rewrite HW, HL.
    pose proof (month_by_month
                  (fun m => MonthOfDay (FirstDayOfMonth leap m) leap =? m) mn Hmn) as T.
    cbv beta in T.
    destruct Hleap as [[L _] | [L _]]; rewrite L in *;
      specialize (T eq_refl); apply Z.eqb_eq in T; exact T. }
  split; [exact HM|].
  pose proof (DayWithinYear_split t) as S. rewrite HW, HL, HM in S. lia.
Qed.

(** An earlier day has the earlier (year, month, day of month). *)
Lemma calendar_order (t1 t2 : Z) :
  Day t1 < Day t2 ->
  YearFromTime t1 < YearFromTime t2 \/
  (YearFromTime t1 = YearFromTime t2 /\
   (MonthFromTime t1 < MonthFromTime t2 \/
    (MonthFromTime t1 = MonthFromTime t2 /\ DateFromTime t1 < DateFromTime t2))).
Proof.
  intros Hlt.
  pose proof (YearFromDay_le (Day t1) (Day t2) ltac:(lia)) as Hy.
  fold (YearFromTime t1) in Hy. fold (YearFromTime t2) in Hy.
  destruct (Z.eq_dec (YearFromTime t1) (YearFromTime t2)) as [E | NE]; [right | left; lia].
  split; [exact E|].
  assert (Hd : DayWithinYear t1 < DayWithinYear t2).
  { unfold DayWithinYear. rewrite E. lia. }
  assert (Hl : InLeapYear t2 = InLeapYear t1).
  { unfold InLeapYear. rewrite E. reflexivity. }
  pose proof (InLeapYear_cases t1) as L.
  unfold DateFromTime, MonthFromTime, MonthOfDay. cbv zeta. rewrite Hl.
  revert Hd. generalize (DayWithinYear t1) (DayWithinYear t2) (InLeapYear t1) L.
  clear. intros d1 d2 leap L Hd.
  month_cases; cbv iota beta; lia.
Qed.

(** Times in the years 0 to 9999 are well inside the range of time values. *)
Lemma four_digit_year_in_range (t : Z) :
  0 <= YearFromTime t <= 9999 -> Z.abs t <= maxTime.
Proof.
  intros H. unfold YearFromTime in H.
  pose proof (YearFromDay_spec (Day t)) as [Lo Hi].
  pose proof (DayFromYear_le 0 (YearFromDay (Day t)) ltac:(lia)) as B0.
  pose proof (DayFromYear_le (YearFromDay (Day t) + 1) 10000 ltac:(lia)) as B1.
  change (DayFromYear 0) with (-719528) in B0.
  change (DayFromYear 10000) with 2932897 in B1.
  unfold Day, msPerDay, maxTime in *. Z.div_mod_to_equations. lia.
Qed.

End CalendarFacts.

(** ** Facts about the strings produced by [toISOString] *)

Module StringFacts.
Import JSValue JSDate.
Local Open Scope string_scope.

Lemma append_assoc (a b c : string) : (a ++ b) ++ c = a ++ (b ++ c).
Proof. induction a as [ | x a IH]; simpl; [reflexivity | rewrite IH; reflexivity]. Qed.

Lemma length_append (a b : string) :
  String.length (a ++ b) = (String.length a + String.length b)%nat.
Proof. induction a as [ | x a IH]; simpl; [reflexivity | rewrite IH; reflexivity]. Qed.

Lemma length_pad (w : nat) (n : Z) : String.length (pad w n) = w.
Proof.
  revert n. induction w as [ | w IH]; intros n; simpl; [reflexivity|].
  rewrite length_append, IH. simpl. lia.
Qed.

Lemma lacks_append (c : ascii) (a b : string) :
  lacks c (a ++ b) = lacks c a && lacks c b.
Proof.
  induction a as [ | x a IH]; simpl; [reflexivity|].
  rewrite IH. rewrite andb_assoc. reflexivity.
Qed.

(** Splitting at a separator that first occurs after [a]. *)
Lemma split_first (sep : ascii) (a b : string) :
  lacks sep a = true ->
  split sep (a ++ String sep b) = a :: split sep b.
Proof.
  induction a as [ | x a IH]; simpl; intros H.
  - rewrite Ascii.eqb_refl. reflexivity.
  - apply andb_true_iff in H. destruct H as [Hx Ha].
    apply negb_true_iff in Hx. rewrite Hx. rewrite (IH Ha). reflexivity.
Qed.

Lemma digit_value_digit (n : Z) : 0 <= n <= 9 -> digit_value (digit n) = n.
Proof.
  intros H. unfold digit_value, digit.
  rewrite N_ascii_embedding by lia. lia.
Qed.

Lemma digit_not_T (n : Z) : 0 <= n <= 9 -> Ascii.eqb (digit n) "T" = false.
Proof.
  intros H. destruct (Ascii.eqb_spec (digit n) "T") as [E | NE]; [|reflexivity].
  apply (f_equal N_of_ascii) in E. unfold digit in E.
  rewrite N_ascii_embedding in E by lia.
  change (N_of_ascii "T"%char) with 84%N in E. lia.
Qed.

Lemma pad_lacks_T (w : nat) (n : Z) : lacks "T" (pad w n) = true.
Proof.
  revert n. induction w as [ | w IH]; intros n; simpl; [reflexivity|].
  rewrite lacks_append, IH. simpl.
  rewrite digit_not_T by (Z.div_mod_to_equations; lia). reflexivity.
Qed.

Lemma YearString_lacks_T (y : Z) : lacks "T" (YearString y) = true.
Proof.
  unfold YearString.
  destruct ((0 <=? y)%Z && (y <=? 9999)%Z); [apply pad_lacks_T|].
  destruct (0 <=? y)%Z; rewrite lacks_append, pad_lacks_T; reflexivity.
Qed.

Lemma DateString_lacks_T (t : Z) : lacks "T" (DateString t) = true.
Proof.
  unfold DateString.
  rewrite !lacks_append, YearString_lacks_T, !pad_lacks_T. reflexivity.
Qed.

(** The date part of an ISO string ends at the first [T]. *)
Lemma split_ISO (t : Z) :
  index (split "T" (DateString t ++ "T" ++ TimeString t)) 0 = VString (DateString t).
Proof.
  change ("T" ++ TimeString t) with (String "T" (TimeString t)).
  rewrite split_first by apply DateString_lacks_T. reflexivity.
Qed.

Lemma read_decimal_from_append (acc : Z) (a b : string) :
  read_decimal_from acc (a ++ b) = read_decimal_from (read_decimal_from acc a) b.
Proof.
  revert acc. induction a as [ | x a IH]; intros acc; simpl; [reflexivity | apply IH].
Qed.

(** The digits printed by [pad] read back as the number printed. *)
Lemma read_decimal_pad (w : nat) (n : Z) :
  0 <= n < 10 ^ Z.of_nat w -> read_decimal (pad w n) = n.
Proof.
  unfold read_decimal. revert n. induction w as [ | w IH]; intros n H.
  - simpl in *. lia.
  - simpl pad. rewrite read_decimal_from_append.
    rewrite Nat2Z.inj_succ, Z.pow_succ_r in H by lia.
    rewrite IH by (Z.div_mod_to_equations; lia).
    cbn [read_decimal_from].
    rewrite digit_value_digit by (Z.div_mod_to_equations; lia).
    Z.div_mod_to_equations; lia.
Qed.

Lemma YearString_in_range (y : Z) : 0 <= y <= 9999 -> YearString y = pad 4 y.
Proof.
  intros H. unfold YearString.
  destruct (Z.leb_spec 0 y); destruct (Z.leb_spec y 9999); try lia. reflexivity.
Qed.

Lemma length_YearString (y : Z) :
  String.length (YearString y) = if ((0 <=? y) && (y <=? 9999))%Z then 4%nat else 7%nat.
Proof.
  unfold YearString.
  destruct ((0 <=? y)%Z && (y <=? 9999)%Z); [apply length_pad|].
  destruct (0 <=? y)%Z; rewrite length_append, length_pad; reflexivity.
Qed.

Lemma length_DateString (t : Z) :
  String.length (DateString t) =
  if ((0 <=? YearFromTime t) && (YearFromTime t <=? 9999))%Z then 10%nat else 13%nat.
Proof.
  unfold DateString. rewrite !length_append, length_YearString, !length_pad.
  destruct ((0 <=? YearFromTime t)%Z && (YearFromTime t <=? 9999)%Z); reflexivity.
Qed.

Lemma append_empty_r (a : string) : a ++ "" = a.
Proof. induction a as [ | x a IH]; simpl; [reflexivity | rewrite IH; reflexivity]. Qed.

Lemma compare_digit (i j : Z) :
  0 <= i <= 9 -> 0 <= j <= 9 -> Ascii.compare (digit i) (digit j) = (i ?= j)%Z.
Proof.
  intros Hi Hj. unfold Ascii.compare, digit. rewrite !N_ascii_embedding by lia.
  destruct (Z.compare_spec i j) as [E | L | G].
  - subst j. apply N.compare_refl.
  - apply N.compare_lt_iff. lia.
  - apply N.compare_gt_iff. lia.
Qed.

(** Strings that start with numbers printed at the same width compare as
    the numbers do, and then as their remainders. *)
Lemma compare_pad (w : nat) (a b : Z) (x y : string) :
  0 <= a < 10 ^ Z.of_nat w -> 0 <= b < 10 ^ Z.of_nat w ->
  String.compare (pad w a ++ x) (pad w b ++ y) =
  match (a ?= b)%Z with
  | Eq => String.compare x y
  | c => c
  end.
Proof.
  revert a b x y. induction w as [ | w IH]; intros a b x y Ha Hb.
  - simpl in Ha, Hb. assert (a = 0) by lia. assert (b = 0) by lia. subst. reflexivity.
  - simpl pad. rewrite !append_assoc. cbn [append].
    rewrite Nat2Z.inj_succ, Z.pow_succ_r in Ha, Hb by lia.
    rewrite IH by (Z.div_mod_to_equations; lia).
    cbn [String.compare].
    rewrite compare_digit by (Z.div_mod_to_equations; lia).
    destruct (Z.compare_spec (a / 10) (b / 10));
      destruct (Z.compare_spec (a mod 10) (b mod 10));
      destruct (Z.compare_spec a b); try reflexivity;
      exfalso; Z.div_mod_to_equations; lia.
Qed.

Lemma compare_dash (x y : string) :
  String.compare ("-" ++ x) ("-" ++ y) = String.compare x y.
Proof. reflexivity. Qed.

(** With four-digit years, date strings compare as the dates do. *)
Lemma compare_DateString (t1 t2 : Z) :
  0 <= YearFromTime t1 <= 9999 -> 0 <= YearFromTime t2 <= 9999 ->
  String.compare (DateString t1) (DateString t2) =
  match (YearFromTime t1 ?= YearFromTime t2)%Z with
  | Eq => match (MonthFromTime t1 ?= MonthFromTime t2)%Z with
          | Eq => (DateFromTime t1 ?= DateFromTime t2)%Z
          | c => c
          end
  | c => c
  end.
Proof.
  intros Y1 Y2. unfold DateString.
  rewrite !YearString_in_range by assumption.
  pose proof (CalendarFacts.MonthFromTime_range t1).
  pose proof (CalendarFacts.MonthFromTime_range t2).
  pose proof (CalendarFacts.DateFromTime_range t1).
  pose proof (CalendarFacts.DateFromTime_range t2).
  rewrite compare_pad by (simpl; lia). rewrite compare_dash.
  rewrite compare_pad by (simpl; lia). rewrite compare_dash.
  rewrite <- (append_empty_r (pad 2 (DateFromTime t1))).
  rewrite <- (append_empty_r (pad 2 (DateFromTime t2))).
  rewrite compare_pad by (simpl; lia).
  rewrite !(Z.add_comm _ 1), Z.add_compare_mono_l.
  destruct (YearFromTime t1 ?= YearFromTime t2)%Z; try reflexivity.
  destruct (MonthFromTime t1 ?= MonthFromTime t2)%Z; try reflexivity.
  destruct (DateFromTime t1 ?= DateFromTime t2)%Z; reflexivity.
Qed.

End StringFacts.

(** ** Facts about the date helpers *)

Module ScriptFacts.
Import JSValue JSDate Script CalendarFacts StringFacts.
Local Open Scope string_scope.

Lemma formatDate_valid (t : Z) : formatDate (Some t) = Normal (VString (DateString t)).
Proof. unfold formatDate, toISOString, bind. rewrite split_ISO. reflexivity. Qed.

Lemma formatDate_invalid : formatDate None = Throw RangeError.
Proof. reflexivity. Qed.

Lemma substring_prefix (a b : string) :
  substring 0 (String.length a) (a ++ b) = a.
Proof.
  induction a as [ | x a IH]; simpl.
  - destruct b; reflexivity.
  - rewrite IH. reflexivity.
Qed.

Lemma substring_skip (a b : string) (n m : nat) :
  substring (String.length a + n) m (a ++ b) = substring n m b.
Proof. induction a as [ | x a IH]; simpl; [reflexivity | exact IH]. Qed.

(** In the years 0 to 9999 the date part is a YYYY-MM-DD string. *)
Lemma DateString_isYMD (t : Z) :
  0 <= YearFromTime t <= 9999 -> isYMD (DateString t) t.
Proof.
  intros HY. pose proof (MonthFromTime_range t) as HM.
  pose proof (DateFromTime_range t) as HD.
  assert (E : DateString t =
              pad 4 (YearFromTime t) ++ "-" ++ pad 2 (MonthFromTime t + 1) ++ "-"
                ++ pad 2 (DateFromTime t)).
  { unfold DateString. rewrite YearString_in_range by assumption. reflexivity. }
  split; [exact E|]. split.
  { rewrite length_DateString.
    destruct (Z.leb_spec 0 (YearFromTime t)); destruct (Z.leb_spec (YearFromTime t) 9999);
      try lia; reflexivity. }
  split; [apply DateString_lacks_T|].
  rewrite E. unfold date_of.
  set (yyyy := pad 4 (YearFromTime t)).
  set (mm := pad 2 (MonthFromTime t + 1)).
  set (dd := pad 2 (DateFromTime t)).
  assert (Ly : String.length yyyy = 4%nat) by apply length_pad.
  assert (Lm : String.length mm = 2%nat) by apply length_pad.
  assert (Ld : String.length dd = 2%nat) by apply length_pad.
  assert (S1 : substring 0 4 (yyyy ++ "-" ++ mm ++ "-" ++ dd) = yyyy).
  { rewrite <- Ly. apply substring_prefix. }
  assert (S2 : substring 5 2 (yyyy ++ "-" ++ mm ++ "-" ++ dd) = mm).
  { change 5%nat with (4 + 1)%nat. rewrite <- Ly at 1. rewrite substring_skip.
    cbn [append substring]. rewrite <- Lm. apply substring_prefix. }
  assert (S3 : substring 8 2 (yyyy ++ "-" ++ mm ++ "-" ++ dd) = dd).
  { change 8%nat with (4 + 4)%nat. rewrite <- Ly at 1. rewrite substring_skip.
    cbn [append substring]. change 3%nat with (2 + 1)%nat. rewrite <- Lm at 1.
    rewrite substring_skip. cbn [append substring].
    rewrite <- (append_empty_r dd) at 1. rewrite <- Ld. apply substring_prefix. }
  rewrite S1, S2, S3. unfold yyyy, mm, dd.
  rewrite !read_decimal_pad by (simpl; lia). reflexivity.
Qed.

(** [setDate(getDate() - n)] moves a Date back by [n] days of 24 hours
    when the zone offset at the target equals the offset at the start. *)
Lemma setDate_back (h : Host) (t n : Z) :
  LocalTZA h (LocalTime h t - n * msPerDay) false = LocalTZA h t true ->
  setDate h (Some t) (sub (getDate h (Some t)) n) = TimeClip (t - n * msPerDay).
Proof.
  intros Hoff. unfold setDate, getDate, sub.
  rewrite MakeDay_from_time.
  set (lt := LocalTime h t) in *.
  replace (Day lt + (DateFromTime lt - n) - DateFromTime lt) with (Day lt - n) by lia.
  assert (E : MakeDate (Day lt - n) (TimeWithinDay lt) = lt - n * msPerDay).
  { pose proof (MakeDate_Day lt) as R. unfold MakeDate in *. lia. }
  rewrite E. unfold UTC. rewrite Hoff. unfold lt, LocalTime. f_equal. lia.
Qed.

Lemma TimeClip_in_range (t : Z) : Z.abs t <= maxTime -> TimeClip t = Some t.
Proof.
  intros H. unfold TimeClip. destruct (Z.ltb_spec maxTime (Z.abs t)); [lia | reflexivity].
Qed.

(** What [getDateRange] returns when both clock readings are [t] and the
    zone offset is the same at both ends of the range. *)
Lemma getDateRange_result (h : Host) (days : option Z) (reads : nat) (t : Z) :
  clock h reads = t -> clock h (S reads) = t ->
  LocalTZA h (LocalTime h t - days_or_default days * msPerDay) false = LocalTZA h t true ->
  Z.abs (t - days_or_default days * msPerDay) <= maxTime ->
  getDateRange h days reads =
    (Normal [("start_time", VString (DateString (t - days_or_default days * msPerDay)));
             ("end_time", VString (DateString t))],
     S (S reads)).
Proof.
  intros C1 C2 Hoff Hrange. unfold getDateRange, newDate. cbv zeta.
  rewrite C1, C2. rewrite (setDate_back h t _ Hoff).
  rewrite (TimeClip_in_range _ Hrange). rewrite !formatDate_valid. reflexivity.
Qed.

(** C3, as stated, fails: the valid Date 10000-01-01T00:00:00Z has an
    ISO string with a sign and a six-digit year, and [formatDate] returns
    thirteen characters for it, not ten. *)
Lemma formatDate_year_10000 :
  Z.abs 253402300800000 <= maxTime /\
  toISOString (Some 253402300800000) = Normal "+010000-01-01T00:00:00.000Z" /\
  formatDate (Some 253402300800000) = Normal (VString "+010000-01-01") /\
  ~ (exists s, formatDate (Some 253402300800000) = Normal (VString s) /\
               String.length s = 10%nat).
Proof.
  split; [vm_compute; discriminate|]. split; [reflexivity|]. split; [reflexivity|].
  intros [s [E L]]. vm_compute in E. inversion E; subst s. discriminate L.
Qed.

(** C3, amended. For every Date whose UTC year is between 0 and 9999,
    [formatDate] returns the part of its ISO string before the [T]: a
    ten-character string YYYY-MM-DD, without time component, whose fields
    are the year, month and day of the UTC calendar date of the Date. *)
Theorem formatDate_YMD (t : Z) :
  0 <= YearFromTime t <= 9999 ->
  exists s,
    formatDate (Some t) = Normal (VString s) /\
    toISOString (Some t) = Normal (s ++ "T" ++ TimeString t) /\
    isYMD s t /\
    MakeDay (YearFromTime t) (MonthFromTime t) (DateFromTime t) = Day t.
Proof.
  intros HY. exists (DateString t). split; [apply formatDate_valid|].
  split; [reflexivity|].
  split; [apply DateString_isYMD; assumption | apply MakeDay_roundtrip].
Qed.

Lemma formatDate_YMD_witness :
  exists s,
    formatDate (Some 1730620800000) = Normal (VString s) /\
    toISOString (Some 1730620800000) = Normal (s ++ "T" ++ TimeString 1730620800000) /\
    isYMD s 1730620800000 /\
    MakeDay (YearFromTime 1730620800000) (MonthFromTime 1730620800000)
      (DateFromTime 1730620800000) = Day 1730620800000.
Proof.
  apply (formatDate_YMD 1730620800000). vm_compute. split; discriminate.
Defined.

(** C4, as stated, fails. With the clock at the epoch in a zone on UTC,
    [getDateRange(100000001)] throws a RangeError instead of returning an
    object, and [getDateRange(720000)] returns a start_time that is not a
    YYYY-MM-DD string; in a zone that left summer time inside the range,
    [getDateRange(30)] at 2024-11-03T00:30Z returns a start_time 31 days
    before its end_time. *)
Lemma getDateRange_not_always_range :
  getDateRange (utc_host 0) (Some 100000001) 0 = (Throw RangeError, 2%nat) /\
  getDateRange (utc_host 0) (Some 720000) 0 =
    (Normal [("start_time", VString "-000002-09-16");
             ("end_time", VString "1970-01-01")], 2%nat) /\
  getDateRange (london_host 1730593800000) (Some 30) 0 =
    (Normal [("start_time", VString "2024-10-03");
             ("end_time", VString "2024-11-03")], 2%nat) /\
  DateString (1730593800000 - 30 * msPerDay) = "2024-10-04".
Proof. repeat split; vm_compute; reflexivity. Qed.

(** The dates of the range are UTC dates: at 07:00 on 2024-11-03 in a zone
    eight hours ahead of UTC the local day of the month is 3 and end_time
    is 2024-11-02. *)
Lemma end_time_is_UTC_date :
  getDate (shanghai_host 1730588400000) (Some 1730588400000) = Some 3 /\
  getDateRange (shanghai_host 1730588400000) None 0 =
    (Normal [("start_time", VString "2024-10-03");
             ("end_time", VString "2024-11-02")], 2%nat).
Proof. split; vm_compute; reflexivity. Qed.

(** C4, amended. Let [n] be the argument, 30 when it is omitted, and [t]
    the time read by both [new Date()] calls. When the zone offset in
    force at the start of the range equals the one in force at [t], and
    [t] and [t] minus [n] days of 24 hours both lie in the UTC years 0 to
    9999, [getDateRange] returns an object with exactly the properties
    start_time and end_time, both YYYY-MM-DD strings: end_time is the UTC
    calendar date of [t] and start_time the UTC calendar date exactly [n]
    days earlier. *)
Theorem getDateRange_dates (h : Host) (days : option Z) (reads : nat) (t : Z) :
  clock h reads = t -> clock h (S reads) = t ->
  LocalTZA h (LocalTime h t - days_or_default days * msPerDay) false = LocalTZA h t true ->
  0 <= YearFromTime t <= 9999 ->
  0 <= YearFromTime (t - days_or_default days * msPerDay) <= 9999 ->
  exists start_time end_time,
    getDateRange h days reads =
      (Normal [("start_time", VString start_time); ("end_time", VString end_time)],
       S (S reads)) /\
    isYMD end_time t /\
    isYMD start_time (t - days_or_default days * msPerDay) /\
    Day (t - days_or_default days * msPerDay) = Day t - days_or_default days /\
    days_or_default None = 30.
Proof.
  intros C1 C2 Hoff Yt Ys.
  exists (DateString (t - days_or_default days * msPerDay)), (DateString t).
  split.
  { apply getDateRange_result; try assumption.
    apply four_digit_year_in_range; assumption. }
  split; [apply DateString_isYMD; assumption|].
  split; [apply DateString_isYMD; assumption|].
  split; [apply Day_shift | reflexivity].
Qed.

Lemma getDateRange_dates_witness :
  exists start_time end_time,
    getDateRange (utc_host 1730620800000) None 0 =
      (Normal [("start_time", VString start_time); ("end_time", VString end_time)],
       2%nat) /\
    isYMD end_time 1730620800000 /\
    isYMD start_time (1730620800000 - days_or_default None * msPerDay) /\
    Day (1730620800000 - days_or_default None * msPerDay) =
      Day 1730620800000 - days_or_default None /\
    days_or_default None = 30.
Proof.
  apply (getDateRange_dates (utc_host 1730620800000) None 0 1730620800000);
    try reflexivity; vm_compute; split; discriminate.
Defined.

(** C5, as stated, fails: [getDateRange(0)] returns a range whose
    start_time equals its end_time, and [getDateRange(-1)] one whose
    start_time is later than its end_time. *)
Lemma getDateRange_empty_window :
  getDateRange (utc_host 0) (Some 0) 0 =
    (Normal [("start_time", VString "1970-01-01");
             ("end_time", VString "1970-01-01")], 2%nat) /\
  String.ltb "1970-01-01" "1970-01-01" = false /\
  getDateRange (utc_host 0) (Some (-1)) 0 =
    (Normal [("start_time", VString "1970-01-02");
             ("end_time", VString "1970-01-01")], 2%nat) /\
  String.ltb "1970-01-02" "1970-01-01" = false.
Proof. repeat split; vm_compute; reflexivity. Qed.

(** C5, amended. For every argument of at least one day (30 when it is
    omitted), under the conditions of C4 (one clock reading [t], the same
    zone offset at both ends, both dates in the years 0 to 9999), the
    range returned by [getDateRange] has its start_time strictly before
    its end_time, as dates and as strings. *)
Theorem getDateRange_window (h : Host) (days : option Z) (reads : nat) (t : Z) :
  1 <= days_or_default days ->
  clock h reads = t -> clock h (S reads) = t ->
  LocalTZA h (LocalTime h t - days_or_default days * msPerDay) false = LocalTZA h t true ->
  0 <= YearFromTime t <= 9999 ->
  0 <= YearFromTime (t - days_or_default days * msPerDay) <= 9999 ->
  exists start_time end_time,
    getDateRange h days reads =
      (Normal [("start_time", VString start_time); ("end_time", VString end_time)],
       S (S reads)) /\
    start_time = DateString (t - days_or_default days * msPerDay) /\
    end_time = DateString t /\
    Day (t - days_or_default days * msPerDay) < Day t /\
    String.ltb start_time end_time = true.
Proof.
  intros Hpos C1 C2 Hoff Yt Ys.
  exists (DateString (t - days_or_default days * msPerDay)), (DateString t).
  split.
  { apply getDateRange_result; try assumption.
    apply four_digit_year_in_range; assumption. }
  split; [reflexivity|]. split; [reflexivity|].
  assert (Hday : Day (t - days_or_default days * msPerDay) < Day t).
  { rewrite Day_shift. lia. }
  split; [exact Hday|].
  unfold String.ltb. rewrite compare_DateString by assumption.
  destruct (calendar_order _ _ Hday) as [Y | [Y [M | [M D]]]].
  - apply Z.compare_lt_iff in Y. rewrite Y. reflexivity.
  - rewrite Y, Z.compare_refl. apply Z.compare_lt_iff in M. rewrite M. reflexivity.
  - rewrite Y, M, !Z.compare_refl. apply Z.compare_lt_iff in D. rewrite D. reflexivity.
Qed.

Lemma getDateRange_window_witness :
  exists start_time end_time,
    getDateRange (utc_host 1730620800000) (Some 7) 0 =
      (Normal [("start_time", VString start_time); ("end_time", VString end_time)],
       2%nat) /\
    start_time = DateString (1730620800000 - days_or_default (Some 7) * msPerDay) /\
    end_time = DateString 1730620800000 /\
    Day (1730620800000 - days_or_default (Some 7) * msPerDay) < Day 1730620800000 /\
    String.ltb start_time end_time = true.
Proof.
  apply (getDateRange_window (utc_host 1730620800000) (Some 7) 0 1730620800000);
    try reflexivity; vm_compute; try discriminate; split; discriminate.
Defined.

End ScriptFacts.

(** ** Facts about the modelled Metric Engine *)

Module MetricFacts.
Import MetricEngine.
Local Open Scope Q_scope.

Lemma guarded_div_zero (n d : Q) : d == 0 -> guarded_div n d = Throw InsufficientData.
Proof.
  intros H. unfold guarded_div. apply Qeq_bool_iff in H. rewrite H. reflexivity.
Qed.

Lemma guarded_div_nonzero (n d : Q) : ~ d == 0 -> guarded_div n d = Normal (n / d).
Proof.
  intros H. unfold guarded_div. destruct (Qeq_bool d 0) eqn:E; [|reflexivity].
  apply Qeq_bool_iff in E. contradiction.
Qed.

(** The only error the engine raises is InsufficientData. *)
Lemma guarded_div_error (n d : Q) (e : MetricError) :
  guarded_div n d = Throw e -> e = InsufficientData.
Proof.
  unfold guarded_div. destruct (Qeq_bool d 0); intros H; inversion H; reflexivity.
Qed.

Lemma compute_metrics_inv (w : WindowData) (r : MetricResult) :
  compute_metrics w = Normal r ->
  exists a p q u,
    compute_availability w = Normal a /\ compute_performance w = Normal p /\
    compute_quality w = Normal q /\ compute_utilization w = Normal u /\
    r = mkMetricResult a p q (a * p * q) (a * p * q * u).
Proof.
  unfold compute_metrics, bind.
  destruct (compute_availability w) as [a | e]; [|discriminate].
  destruct (compute_performance w) as [p | e]; [|discriminate].
  destruct (compute_quality w) as [q | e]; [|discriminate].
  destruct (compute_utilization w) as [u | e]; [|discriminate].
  intros H. inversion H. exists a, p, q, u. repeat split; reflexivity.
Qed.

(** The worked example of section 8 of the specification. *)
Lemma example_metrics :
  exists r, compute_metrics example_window = Normal r /\
            availability r == 5 # 6 /\ performance r == 7 # 8 /\
            quality r == 33 # 35 /\ oee r == 11 # 16.
Proof. eexists. split; [reflexivity|]. repeat split; reflexivity. Qed.

Lemma compute_availability_error (w : WindowData) (e : MetricError) :
  compute_availability w = Throw e -> e = InsufficientData.
Proof.
  unfold compute_availability, bind.
  destruct (Nat.eqb (record_count w) 0); [intros H; inversion H; reflexivity|].
  destruct (guarded_div (actual_run_time w) (planned_production_time w)) eqn:G;
    [discriminate|].
  intros H. inversion H; subst. exact (guarded_div_error _ _ _ G).
Qed.

Lemma compute_performance_error (w : WindowData) (e : MetricError) :
  compute_performance w = Throw e -> e = InsufficientData.
Proof.
  unfold compute_performance, bind.
  destruct (guarded_div (ideal_cycle_time w * total_count w) (actual_run_time w)) eqn:G;
    [discriminate|].
  intros H. inversion H; subst. exact (guarded_div_error _ _ _ G).
Qed.

(** C7. For every MetricResult computed by the engine, oee is the
    product of availability, performance and quality, exactly and so
    within the tolerance 1e-9. *)
Theorem oee_is_product (w : WindowData) (r : MetricResult) :
  compute_metrics w = Normal r ->
  oee r == availability r * performance r * quality r /\
  Qabs (oee r - availability r * performance r * quality r) <= tolerance.
Proof.
  intros H. destruct (compute_metrics_inv w r H) as [a [p [q [u [_ [_ [_ [_ E]]]]]]]].
  subst r. cbn [oee availability performance quality].
  split; [reflexivity|].
  setoid_replace (a * p * q - a * p * q) with 0 by ring.
  unfold tolerance, Qle. simpl. lia.
Qed.

Lemma oee_is_product_witness :
  exists r, compute_metrics example_window = Normal r /\
    oee r == availability r * performance r * quality r /\
    Qabs (oee r - availability r * performance r * quality r) <= tolerance.
Proof.
  eexists. split; [reflexivity|].
  apply (oee_is_product example_window). reflexivity.
Defined.

(** C8. For every window whose total count is zero the quality
    computation fails with InsufficientData, and so does the computation
    of the MetricResult; every division of the engine fails with
    InsufficientData on a zero denominator. *)
Theorem zero_total_count_insufficient (w : WindowData) :
  total_count w == 0 ->
  compute_quality w = Throw InsufficientData /\
  compute_metrics w = Throw InsufficientData /\
  (forall n d, d == 0 -> guarded_div n d = Throw InsufficientData) /\
  (planned_production_time w == 0 -> compute_availability w = Throw InsufficientData) /\
  (actual_run_time w == 0 -> compute_performance w = Throw InsufficientData) /\
  (total_calendar_time w == 0 -> compute_utilization w = Throw InsufficientData).
Proof.
  intros Hz.
  assert (Hq : compute_quality w = Throw InsufficientData).
  { unfold compute_quality. apply guarded_div_zero. exact Hz. }
  split; [exact Hq|]. split.
  { unfold compute_metrics, bind.
    destruct (compute_availability w) as [a | e] eqn:A.
    - destruct (compute_performance w) as [p | e] eqn:P.
      + rewrite Hq. reflexivity.
      + rewrite (compute_performance_error w e P). reflexivity.
    - rewrite (compute_availability_error w e A). reflexivity. }
  split; [exact guarded_div_zero|]. split; [|split].
  - intros H. unfold compute_availability.
    destruct (Nat.eqb (record_count w) 0); [reflexivity|].
    rewrite guarded_div_zero by exact H. reflexivity.
  - intros H. unfold compute_performance.
    rewrite guarded_div_zero by exact H. reflexivity.
  - intros H. unfold compute_utilization. apply guarded_div_zero. exact H.
Qed.

Lemma zero_total_count_insufficient_witness :
  compute_quality (mkWindowData 1 480 400 1 0 0 1440) = Throw InsufficientData /\
  compute_metrics (mkWindowData 1 480 400 1 0 0 1440) = Throw InsufficientData.
Proof.
  pose proof (zero_total_count_insufficient (mkWindowData 1 480 400 1 0 0 1440)
                ltac:(reflexivity)) as [Hq [Hm _]].
  split; assumption.
Defined.

End MetricFacts.

(** ** Further facts: splitting and joining *)

Module SplitFacts.
Import JSValue JSDate Runtime StringFacts.
Local Open Scope string_scope.

Lemma split_nonempty (sep : ascii) (s : string) : split sep s <> [].
Proof.
  destruct s as [ | c rest]; simpl; [discriminate|].
  destruct (Ascii.eqb c sep); [discriminate|].
  destruct (split sep rest); discriminate.
Qed.

Lemma join_cons (sep : ascii) (piece : string) (rest : list string) :
  rest <> [] -> join sep (piece :: rest) = piece ++ String sep (join sep rest).
Proof. destruct rest; [contradiction | reflexivity]. Qed.

Lemma join_split (sep : ascii) (s : string) : join sep (split sep s) = s.
Proof.
  induction s as [ | c rest IH]; [reflexivity|].
  pose proof (split_nonempty sep rest) as NE. simpl split.
  destruct (Ascii.eqb_spec c sep) as [E | NE'].
  - subst c. rewrite join_cons by assumption. rewrite IH. reflexivity.
  - destruct (split sep rest) as [ | piece pieces]; [contradiction|].
    destruct pieces as [ | q pieces].
    + simpl in *. rewrite IH. reflexivity.
    + rewrite join_cons by discriminate. rewrite join_cons in IH by discriminate.
      cbn [append]. rewrite IH. reflexivity.
Qed.

Lemma split_pieces_lack (sep : ascii) (s : string) :
  Forall (fun piece => lacks sep piece = true) (split sep s).
Proof.
  induction s as [ | c rest IH]; simpl.
  - constructor; [reflexivity | constructor].
  - destruct (Ascii.eqb c sep) eqn:E.
    + constructor; [reflexivity | exact IH].
    + destruct (split sep rest) as [ | piece pieces]; [repeat constructor; simpl; rewrite E; reflexivity|].
      inversion IH as [ | ? ? Hp Hps]; subst.
      constructor; [simpl; rewrite E, Hp; reflexivity | exact Hps].
Qed.

Lemma split_length (sep : ascii) (s : string) :
  List.length (split sep s) = S (occurrences sep s).
Proof.
  induction s as [ | c rest IH]; simpl; [reflexivity|].
  destruct (Ascii.eqb c sep).
  - simpl. rewrite IH. reflexivity.
  - destruct (split sep rest) as [ | piece pieces]; simpl in *; [discriminate | exact IH].
Qed.

(** X8. Splitting at a character loses nothing: the pieces are never
    none, there is one more of them than occurrences of the separator,
    none holds the separator, and joining them with the separator gives
    the string back. *)
Theorem split_join_roundtrip (sep : ascii) (s : string) :
  join sep (split sep s) = s /\
  split sep s <> [] /\
  List.length (split sep s) = S (occurrences sep s) /\
  Forall (fun piece => lacks sep piece = true) (split sep s).
Proof.
  split; [apply join_split|]. split; [apply split_nonempty|].
  split; [apply split_length | apply split_pieces_lack].
Qed.

(** X9. Joining pieces that do not hold the separator and splitting the
    result gives the pieces back, so the first piece of a split is the
    text before the first separator. *)
Theorem split_of_join (sep : ascii) (pieces : list string) :
  pieces <> [] ->
  Forall (fun piece => lacks sep piece = true) pieces ->
  split sep (join sep pieces) = pieces.
Proof.
  induction pieces as [ | piece rest IH]; [contradiction|].
  intros _ All. inversion All as [ | ? ? Hp Hrest]; subst.
  destruct rest as [ | q rest].
  - simpl. clear IH All Hrest. induction piece as [ | c piece IHp]; [reflexivity|].
    simpl in Hp. apply andb_true_iff in Hp. destruct Hp as [Hc Hp].
    apply negb_true_iff in Hc. simpl. rewrite Hc, (IHp Hp). reflexivity.
  - rewrite join_cons by discriminate. rewrite split_first by assumption.
    rewrite IH by (discriminate || assumption). reflexivity.
Qed.

Lemma split_of_join_witness :
  split "T" (join "T" ["2024-11-03"; "08:00:00.000Z"]) = ["2024-11-03"; "08:00:00.000Z"].
Proof.
  apply (split_of_join "T" ["2024-11-03"; "08:00:00.000Z"]).
  - discriminate.
  - repeat constructor.
Defined.

End SplitFacts.

(** ** Further facts: the calendar fields of a time value *)

Module CivilFacts.
Import JSValue JSDate Runtime CalendarFacts.

Lemma LeapOfYear_cases (y : Z) : LeapOfYear y = 0 \/ LeapOfYear y = 1.
Proof. unfold LeapOfYear. destruct (DaysInYear y =? 366); auto. Qed.

Lemma DaysInYear_LeapOfYear (y : Z) : DaysInYear y = 365 + LeapOfYear y.
Proof.
  unfold LeapOfYear. destruct (DaysInYear_cases y) as [E | E]; rewrite E; reflexivity.
Qed.

(** A day of a month lies in that month, and inside the year. *)
Lemma day_of_month_in_month (leap m d : Z) :
  leap = 0 \/ leap = 1 -> 0 <= m <= 11 -> 1 <= d <= DaysInMonth leap m ->
  MonthOfDay (FirstDayOfMonth leap m + d - 1) leap = m /\
  0 <= FirstDayOfMonth leap m + d - 1 < 365 + leap.
Proof.
  intros Hl Hm. assert (E : m = Z.of_nat (Z.to_nat m)) by lia.
  revert E. generalize (Z.to_nat m). intros k E.
  do 12 (destruct k as [ | k];
         [ subst m; simpl Z.of_nat; cbn [DaysInMonth FirstDayOfMonth]; intros Hd;
           unfold MonthOfDay; split; [month_cases; lia | lia] | ]).
  lia.
Qed.

Lemma DateFromTime_in_month (t : Z) :
  1 <= DateFromTime t <= DaysInMonth (InLeapYear t) (MonthFromTime t).
Proof.
  pose proof (DayWithinYear_range t) as R. pose proof (InLeapYear_cases t) as L.
  unfold DateFromTime, MonthFromTime, MonthOfDay. cbv zeta.
  month_cases; cbv iota beta; cbn [DaysInMonth]; lia.
Qed.

(** X11. The year, month and day of the month of a time value form a date
    of the calendar (month 0 to 11, day 1 to the length of the month), and
    MakeDay maps them back to the day number of the time value. *)
Theorem calendar_fields_valid (t : Z) :
  0 <= MonthFromTime t <= 11 /\
  1 <= DateFromTime t <= DaysInMonth (LeapOfYear (YearFromTime t)) (MonthFromTime t) /\
  MakeDay (YearFromTime t) (MonthFromTime t) (DateFromTime t) = Day t.
Proof.
  split; [apply MonthFromTime_range|]. split; [|apply MakeDay_roundtrip].
  change (LeapOfYear (YearFromTime t)) with (InLeapYear t). apply DateFromTime_in_month.
Qed.

(** X12. Conversely, the day number that MakeDay gives to a date of the
    calendar decomposes into that same year, month and day, so that the
    calendar date of a time value is unique. *)
Theorem calendar_fields_of_MakeDay (y m d : Z) :
  0 <= m <= 11 -> 1 <= d <= DaysInMonth (LeapOfYear y) m ->
  YearFromTime (MakeDay y m d * msPerDay) = y /\
  MonthFromTime (MakeDay y m d * msPerDay) = m /\
  DateFromTime (MakeDay y m d * msPerDay) = d.
Proof.
  intros Hm Hd. set (t := MakeDay y m d * msPerDay).
  destruct (day_of_month_in_month (LeapOfYear y) m d (LeapOfYear_cases y) Hm Hd)
    as [HM HW].
  assert (HD : Day t = DayFromYear y + (FirstDayOfMonth (LeapOfYear y) m + d - 1)).
  { unfold t. rewrite Day_of_day_start. unfold MakeDay. cbv zeta.
    rewrite (Z.div_small m 12), (Z.mod_small m 12) by lia.
    rewrite Z.add_0_r. fold (LeapOfYear y). lia. }
  assert (HY : YearFromTime t = y).
  { unfold YearFromTime. apply YearFromDay_unique.
    rewrite DayFromYear_succ, DaysInYear_LeapOfYear. lia. }
  assert (HL : InLeapYear t = LeapOfYear y).
  { unfold InLeapYear, LeapOfYear. rewrite HY. reflexivity. }
  assert (HDW : DayWithinYear t = FirstDayOfMonth (LeapOfYear y) m + d - 1).
  { unfold DayWithinYear. rewrite HY. lia. }
  assert (HMt : MonthFromTime t = m).
  { unfold MonthFromTime. rewrite HDW, HL. exact HM. }
  split; [exact HY|]. split; [exact HMt|].
  pose proof (DayWithinYear_split t) as S. rewrite HDW, HL, HMt in S. lia.
Qed.

Lemma calendar_fields_of_MakeDay_witness :
  YearFromTime (MakeDay 2024 1 29 * msPerDay) = 2024 /\
  MonthFromTime (MakeDay 2024 1 29 * msPerDay) = 1 /\
  DateFromTime (MakeDay 2024 1 29 * msPerDay) = 29.
Proof.
  apply (calendar_fields_of_MakeDay 2024 1 29); vm_compute; split; discriminate.
Defined.

(** X13. The fields that [toISOString] prints determine the time value:
    the hour, minute, second and millisecond are in their ranges, and with
    the calendar fields they recombine, through MakeTime, MakeDay and
    MakeDate, to the time value itself. *)
Theorem time_fields_recombine (t : Z) :
  0 <= HourFromTime t < 24 /\ 0 <= MinFromTime t < 60 /\
  0 <= SecFromTime t < 60 /\ 0 <= msFromTime t < 1000 /\
  MakeTime (HourFromTime t) (MinFromTime t) (SecFromTime t) (msFromTime t)
    = TimeWithinDay t /\
  MakeDate (MakeDay (YearFromTime t) (MonthFromTime t) (DateFromTime t))
    (MakeTime (HourFromTime t) (MinFromTime t) (SecFromTime t) (msFromTime t)) = t.
Proof.
  assert (HT : MakeTime (HourFromTime t) (MinFromTime t) (SecFromTime t) (msFromTime t)
               = TimeWithinDay t).
  { unfold MakeTime, HourFromTime, MinFromTime, SecFromTime, msFromTime, TimeWithinDay,
      msPerHour, msPerMinute, msPerSecond, msPerDay.
    Z.div_mod_to_equations. lia. }
  repeat split;
    try (unfold HourFromTime, MinFromTime, SecFromTime, msFromTime, msPerSecond;
         apply Z.mod_pos_bound; lia).
  - exact HT.
  - rewrite HT, MakeDay_roundtrip. apply MakeDate_Day.
Qed.

End CivilFacts.

(** ** Further facts: [formatDate] and [getDateRange] *)

Module RangeFacts.
Import JSValue JSDate Script CalendarFacts StringFacts ScriptFacts.
Local Open Scope string_scope.

Lemma DateString_same_day (t1 t2 : Z) : Day t1 = Day t2 -> DateString t1 = DateString t2.
Proof.
  intros E.
  assert (EY : YearFromTime t1 = YearFromTime t2) by (unfold YearFromTime; rewrite E; reflexivity).
  assert (EL : InLeapYear t1 = InLeapYear t2) by (unfold InLeapYear; rewrite EY; reflexivity).
  assert (EW : DayWithinYear t1 = DayWithinYear t2) by (unfold DayWithinYear; rewrite E, EY; reflexivity).
  assert (EM : MonthFromTime t1 = MonthFromTime t2) by (unfold MonthFromTime; rewrite EW, EL; reflexivity).
  assert (ED : DateFromTime t1 = DateFromTime t2) by (unfold DateFromTime; rewrite EW, EL, EM; reflexivity).
  unfold DateString. rewrite EY, EM, ED. reflexivity.
Qed.

Lemma compare_same (s : string) : String.compare s s = Eq.
Proof.
  induction s as [ | c s IH]; simpl; [reflexivity|].
  unfold Ascii.compare. rewrite N.compare_refl. exact IH.
Qed.

Lemma compare_DateString_days (t1 t2 : Z) :
  0 <= YearFromTime t1 <= 9999 -> 0 <= YearFromTime t2 <= 9999 ->
  String.compare (DateString t1) (DateString t2) = (Day t1 ?= Day t2)%Z.
Proof.
  intros Y1 Y2.
  assert (Lt_case : forall a b, 0 <= YearFromTime a <= 9999 -> 0 <= YearFromTime b <= 9999 ->
                      Day a < Day b -> String.compare (DateString a) (DateString b) = Lt).
  { intros a b Ya Yb Hday. rewrite compare_DateString by assumption.
    destruct (calendar_order _ _ Hday) as [Y | [Y [M | [M D]]]].
    - apply Z.compare_lt_iff in Y. rewrite Y. reflexivity.
    - rewrite Y, Z.compare_refl. apply Z.compare_lt_iff in M. rewrite M. reflexivity.
    - rewrite Y, M, !Z.compare_refl. apply Z.compare_lt_iff in D. rewrite D. reflexivity. }
  destruct (Z.compare_spec (Day t1) (Day t2)) as [E | L | G].
  - rewrite (DateString_same_day t1 t2 E). apply compare_same.
  - apply Lt_case; assumption.
  - rewrite String.compare_antisym, (Lt_case t2 t1) by assumption. reflexivity.
Qed.

(** X1. [formatDate] throws a RangeError on an invalid Date and returns a
    string without [T] on every valid one: ten characters in the years 0
    to 9999, thirteen beginning with a plus sign in later years and
    thirteen beginning with a minus sign in earlier ones. *)
Theorem formatDate_every_date (date : time_value) :
  match date with
  | None => formatDate date = Throw RangeError
  | Some t =>
      exists s, formatDate date = Normal (VString s) /\ lacks "T" s = true /\
        (0 <= YearFromTime t <= 9999 -> String.length s = 10%nat) /\
        (9999 < YearFromTime t -> String.length s = 13%nat /\ get 0 s = Some "+"%char) /\
        (YearFromTime t < 0 -> String.length s = 13%nat /\ get 0 s = Some "-"%char)
  end.
Proof.
  destruct date as [t | ]; [|reflexivity].
  exists (DateString t). split; [apply formatDate_valid|].
  split; [apply DateString_lacks_T|].
  rewrite length_DateString. unfold DateString, YearString.
  destruct (Z.leb_spec 0 (YearFromTime t)); destruct (Z.leb_spec (YearFromTime t) 9999);
    cbn [andb]; repeat split; intros; try lia; reflexivity.
Qed.

Lemma formatDate_every_date_witness :
  exists s, formatDate (Some (-62198755200000)) = Normal (VString s) /\
    String.length s = 13%nat /\ get 0 s = Some "-"%char.
Proof.
  destruct (formatDate_every_date (Some (-62198755200000))) as [s [E [_ [_ [_ H]]]]].
  exists s. split; [exact E|]. apply H. vm_compute. reflexivity.
Defined.

(** X2. In the years 0 to 9999 the strings of [formatDate] order as the
    UTC days of the Dates do: comparing two of them as strings is
    comparing the day numbers, and they are equal exactly for two times of
    the same UTC day. *)
Theorem formatDate_orders_days (t1 t2 : Z) :
  0 <= YearFromTime t1 <= 9999 -> 0 <= YearFromTime t2 <= 9999 ->
  exists s1 s2,
    formatDate (Some t1) = Normal (VString s1) /\
    formatDate (Some t2) = Normal (VString s2) /\
    String.compare s1 s2 = (Day t1 ?= Day t2)%Z /\
    (s1 = s2 <-> Day t1 = Day t2).
Proof.
  intros Y1 Y2. exists (DateString t1), (DateString t2).
  split; [apply formatDate_valid|]. split; [apply formatDate_valid|].
  pose proof (compare_DateString_days t1 t2 Y1 Y2) as C.
  split; [exact C|]. split.
  - intros E. rewrite E in C.
    apply Z.compare_eq_iff. rewrite <- C. apply compare_same.
  - apply DateString_same_day.
Qed.

Lemma formatDate_orders_days_witness :
  exists s1 s2,
    formatDate (Some 1730620800000) = Normal (VString s1) /\
    formatDate (Some 1730678400000) = Normal (VString s2) /\
    String.compare s1 s2 = (Day 1730620800000 ?= Day 1730678400000)%Z /\
    (s1 = s2 <-> Day 1730620800000 = Day 1730678400000).
Proof.
  apply (formatDate_orders_days 1730620800000 1730678400000);
    vm_compute; split; discriminate.
Defined.

Lemma setDate_shift (h : Host) (t n : Z) :
  setDate h (Some t) (sub (getDate h (Some t)) n) =
  TimeClip (UTC h (LocalTime h t - n * msPerDay)).
Proof.
  unfold setDate, getDate, sub. rewrite MakeDay_from_time.
  set (lt := LocalTime h t).
  replace (Day lt + (DateFromTime lt - n) - DateFromTime lt) with (Day lt - n) by lia.
  assert (E : MakeDate (Day lt - n) (TimeWithinDay lt) = lt - n * msPerDay).
  { pose proof (MakeDate_Day lt) as R. unfold MakeDate in *. lia. }
  rewrite E. reflexivity.
Qed.

(** X3. [startDate.setDate(startDate.getDate() - n)] moves the local
    wall-clock time of the Date back by exactly [n] calendar days, across
    the ends of months and years, and keeps the time of day; the new
    value of the Date is that local time converted back to UTC and clipped
    to the range of time values. *)
Theorem setDate_getDate_minus (h : Host) (t n : Z) :
  exists local,
    setDate h (Some t) (sub (getDate h (Some t)) n) = TimeClip (UTC h local) /\
    Day local = Day (LocalTime h t) - n /\
    TimeWithinDay local = TimeWithinDay (LocalTime h t) /\
    MakeDay (YearFromTime local) (MonthFromTime local) (DateFromTime local)
      = MakeDay (YearFromTime (LocalTime h t)) (MonthFromTime (LocalTime h t))
          (DateFromTime (LocalTime h t)) - n.
Proof.
  exists (LocalTime h t - n * msPerDay).
  split; [apply setDate_shift|]. split; [apply Day_shift|].
  split; [apply TimeWithinDay_shift|].
  rewrite !MakeDay_roundtrip. apply Day_shift.
Qed.

(** What [getDateRange] evaluates to, on any host. *)
Lemma getDateRange_unfold (h : Host) (days : option Z) (reads : nat) :
  getDateRange h days reads =
  (start_time <- formatDate
     (TimeClip (UTC h (LocalTime h (clock h (S reads)) - days_or_default days * msPerDay))) ;;
   Normal [("start_time", start_time);
           ("end_time", VString (DateString (clock h reads)))],
   S (S reads)).
Proof.
  unfold getDateRange, newDate. cbv zeta. rewrite setDate_shift.
  rewrite formatDate_valid. unfold bind.
  destruct (formatDate _); reflexivity.
Qed.

(** X4. [getDateRange] reads the clock exactly twice. It returns an
    object with the two string fields start_time and end_time when the
    start instant is within the range of time values, and throws a
    RangeError otherwise; end_time is the UTC date of the first reading
    and start_time the UTC date of the start instant, which is computed
    from the second reading. *)
Theorem getDateRange_outcome (h : Host) (days : option Z) (reads : nat) :
  let start := UTC h (LocalTime h (clock h (S reads)) - days_or_default days * msPerDay) in
  snd (getDateRange h days reads) = S (S reads) /\
  (Z.abs start <= maxTime ->
   fst (getDateRange h days reads) =
     Normal [("start_time", VString (DateString start));
             ("end_time", VString (DateString (clock h reads)))]) /\
  (maxTime < Z.abs start -> fst (getDateRange h days reads) = Throw RangeError).
Proof.
  cbv zeta. rewrite getDateRange_unfold. cbn [fst snd].
  split; [reflexivity|]. split; intros H; unfold TimeClip.
  - destruct (Z.ltb_spec maxTime
                (Z.abs (UTC h (LocalTime h (clock h (S reads)) - days_or_default days * msPerDay))));
      [lia|]. rewrite formatDate_valid. reflexivity.
  - destruct (Z.ltb_spec maxTime
                (Z.abs (UTC h (LocalTime h (clock h (S reads)) - days_or_default days * msPerDay))));
      [reflexivity | lia].
Qed.

Lemma getDateRange_outcome_witness :
  fst (getDateRange (utc_host 0) (Some 100000001) 0) = Throw RangeError.
Proof.
  apply (getDateRange_outcome (utc_host 0) (Some 100000001) 0).
  vm_compute. reflexivity.
Defined.

(** X5. In a zone whose offset from UTC never changes, the result of
    [getDateRange] does not depend on the offset: it is the result on a
    host on UTC with the same clock. *)
Theorem getDateRange_fixed_zone (h : Host) (offset : Z) (days : option Z) (reads : nat) :
  (forall u isUTC, LocalTZA h u isUTC = offset) ->
  getDateRange h days reads = getDateRange (mkHost (fun _ _ => 0%Z) (clock h)) days reads.
Proof.
  intros Hz. rewrite !getDateRange_unfold. unfold UTC, LocalTime. rewrite !Hz.
  cbn [LocalTZA clock].
  replace (clock h (S reads) + offset - days_or_default days * msPerDay - offset)%Z
    with (clock h (S reads) + 0 - days_or_default days * msPerDay - 0)%Z by lia.
  reflexivity.
Qed.

Lemma getDateRange_fixed_zone_witness :
  getDateRange (shanghai_host 1730588400000) None 0 =
  getDateRange (mkHost (fun _ _ => 0%Z) (clock (shanghai_host 1730588400000))) None 0.
Proof.
  apply (getDateRange_fixed_zone (shanghai_host 1730588400000) 28800000 None 0).
  reflexivity.
Defined.

(** X6. When the zone offset at the start of the range differs from the
    offset at the current time [t] by at most a day, as across a change of
    summer time, the start_time that [getDateRange] returns is the UTC
    date of a day at most one day away from [n] days before [t]. *)
Theorem getDateRange_offset_drift (h : Host) (days : option Z) (reads : nat) (t : Z) :
  let n := days_or_default days in
  let start := UTC h (LocalTime h t - n * msPerDay) in
  clock h reads = t -> clock h (S reads) = t ->
  (Z.abs (LocalTZA h t true - LocalTZA h (LocalTime h t - n * msPerDay) false)
     <= msPerDay)%Z ->
  (Z.abs start <= maxTime)%Z ->
  getDateRange h days reads =
    (Normal [("start_time", VString (DateString start));
             ("end_time", VString (DateString t))], S (S reads)) /\
  (Day t - n - 1 <= Day start <= Day t - n + 1)%Z.
Proof.
  cbv zeta. intros C1 C2 Hoff Hrange. split.
  - rewrite getDateRange_unfold, C1, C2. rewrite (TimeClip_in_range _ Hrange).
    rewrite formatDate_valid. reflexivity.
  - unfold UTC, LocalTime in *.
    set (o1 := LocalTZA h t true) in *.
    set (o2 := LocalTZA h (t + o1 - days_or_default days * msPerDay) false) in *.
    set (n := days_or_default days) in *.
    unfold Day, msPerDay in *. Z.div_mod_to_equations. lia.
Qed.

Lemma getDateRange_offset_drift_witness :
  (Day 1730593800000 - 30 - 1
   <= Day (UTC (london_host 1730593800000)
             (LocalTime (london_host 1730593800000) 1730593800000 - 30 * msPerDay))
   <= Day 1730593800000 - 30 + 1)%Z.
Proof.
  apply (getDateRange_offset_drift (london_host 1730593800000) (Some 30) 0 1730593800000);
    try reflexivity; vm_compute; discriminate.
Defined.

(** X7. Under the conditions of the amended C4, the order of the two
    strings of the range is the sign of the argument: start_time is before
    end_time for a positive number of days, equal to it for zero and after
    it for a negative number. *)
Theorem getDateRange_order_is_sign (h : Host) (days : option Z) (reads : nat) (t : Z) :
  clock h reads = t -> clock h (S reads) = t ->
  LocalTZA h (LocalTime h t - days_or_default days * msPerDay) false = LocalTZA h t true ->
  (0 <= YearFromTime t <= 9999)%Z ->
  (0 <= YearFromTime (t - days_or_default days * msPerDay) <= 9999)%Z ->
  exists start_time end_time,
    getDateRange h days reads =
      (Normal [("start_time", VString start_time); ("end_time", VString end_time)],
       S (S reads)) /\
    String.compare start_time end_time = (0 ?= days_or_default days)%Z.
Proof.
  intros C1 C2 Hoff Yt Ys.
  exists (DateString (t - days_or_default days * msPerDay)), (DateString t).
  split.
  { apply getDateRange_result; try assumption.
    apply four_digit_year_in_range; assumption. }
  rewrite compare_DateString_days by assumption. rewrite Day_shift.
  destruct (Z.compare_spec 0 (days_or_default days)) as [E | L | G].
  - apply Z.compare_eq_iff. lia.
  - apply Z.compare_lt_iff. lia.
  - apply Z.compare_gt_iff. lia.
Qed.

Lemma getDateRange_order_is_sign_witness :
  exists start_time end_time,
    getDateRange (utc_host 1730620800000) (Some (-3)) 0 =
      (Normal [("start_time", VString start_time); ("end_time", VString end_time)],
       2%nat) /\
    String.compare start_time end_time = (0 ?= days_or_default (Some (-3)))%Z.
Proof.
  apply (getDateRange_order_is_sign (utc_host 1730620800000) (Some (-3)) 0 1730620800000);
    try reflexivity; vm_compute; split; discriminate.
Defined.

(** X10. [YearFromTime] returns the year in which the time value lies:
    it is [y] exactly when the time value is at or after the start of year
    [y] and before the start of year [y + 1]. *)
Theorem YearFromTime_characterised (t y : Z) :
  YearFromTime t = y <-> (TimeFromYear y <= t < TimeFromYear (y + 1))%Z.
Proof.
  unfold YearFromTime, TimeFromYear. split.
  - intros E. subst y. pose proof (YearFromDay_spec (Day t)) as [Lo Hi].
    unfold Day, msPerDay in *. Z.div_mod_to_equations. lia.
  - intros [Lo Hi]. apply YearFromDay_unique.
    unfold Day, msPerDay in *. Z.div_mod_to_equations. lia.
Qed.

Lemma YearFromTime_characterised_witness : YearFromTime 1730620800000 = 2024.
Proof.
  apply (proj2 (YearFromTime_characterised 1730620800000 2024)).
  vm_compute. split; [discriminate | reflexivity].
Defined.

End RangeFacts.

(** ** Further facts: the navigation handler *)

Module NavFacts.
Import Dom.
Local Open Scope string_scope.

Lemma contains_In (tokens : list string) (token : string) :
  contains tokens token = true <-> In token tokens.
Proof.
  unfold contains. rewrite existsb_exists. split.
  - intros [x [Hin E]]. apply String.eqb_eq in E. subst x. exact Hin.
  - intros Hin. exists token. split; [exact Hin | apply String.eqb_refl].
Qed.

Lemma In_classList_add (tokens : list string) (token c : string) :
  In c (classList_add tokens token) <-> In c tokens \/ c = token.
Proof.
  unfold classList_add. destruct (contains tokens token) eqn:E.
  - apply contains_In in E. split; [auto|]. intros [H | H]; [exact H | subst; exact E].
  - rewrite in_app_iff. simpl. split.
    + intros [H | [H | []]]; [left; exact H | right; symmetry; exact H].
    + intros [H | H]; [left; exact H | right; left; symmetry; exact H].
Qed.

Lemma contains_classList_add (tokens : list string) (token c : string) :
  contains (classList_add tokens token) c = contains tokens c || String.eqb c token.
Proof.
  destruct (contains (classList_add tokens token) c) eqn:L; symmetry.
  - apply contains_In, In_classList_add in L. apply orb_true_iff.
    destruct L as [H | H]; [left; apply contains_In; exact H | right; apply String.eqb_eq; exact H].
  - apply orb_false_iff. split.
    + destruct (contains tokens c) eqn:K; [|reflexivity].
      apply contains_In in K.
      assert (In c (classList_add tokens token)) by (apply In_classList_add; auto).
      apply contains_In in H. congruence.
    + destruct (String.eqb_spec c token) as [E | NE]; [|reflexivity].
      assert (In c (classList_add tokens token)) by (apply In_classList_add; auto).
      apply contains_In in H. congruence.
Qed.

Lemma classList_add_twice (tokens : list string) (token : string) :
  classList_add (classList_add tokens token) token = classList_add tokens token.
Proof.
  unfold classList_add at 1. rewrite contains_classList_add, String.eqb_refl, orb_true_r.
  reflexivity.
Qed.

Lemma selects_add_active (path : string) (e : element) :
  selects path (add_active e) = selects path e.
Proof.
  unfold selects, add_active. cbn [classes href].
  rewrite contains_classList_add. change ("nav-link" =? "active") with false.
  rewrite orb_false_r. reflexivity.
Qed.

Lemma add_active_twice (e : element) : add_active (add_active e) = add_active e.
Proof. unfold add_active. cbn [classes href]. rewrite classList_add_twice. reflexivity. Qed.

Lemma length_update (i : nat) (f : element -> element) (doc : document) :
  List.length (update i f doc) = List.length doc.
Proof.
  revert i. induction doc as [ | e rest IH]; intros [ | j]; simpl; try reflexivity.
  rewrite IH. reflexivity.
Qed.

Lemma nth_error_update (i j : nat) (f : element -> element) (doc : document) :
  nth_error (update i f doc) j =
  if Nat.eqb i j then option_map f (nth_error doc j) else nth_error doc j.
Proof.
  revert i j. induction doc as [ | e rest IH]; intros [ | i] [ | j]; simpl; try reflexivity.
  - destruct (Nat.eqb i j); reflexivity.
  - apply IH.
Qed.

(** [querySelector] finds the first element that matches. *)
Lemma querySelector_Some (path : string) (doc : document) (i : nat) :
  querySelector path doc = Some i ->
  exists e, nth_error doc i = Some e /\ selects path e = true /\
    forall j e', (j < i)%nat -> nth_error doc j = Some e' -> selects path e' = false.
Proof.
  revert i. induction doc as [ | e rest IH]; intros i; simpl; [discriminate|].
  destruct (selects path e) eqn:S.
  - intros H. inversion H; subst. exists e. split; [reflexivity|]. split; [exact S|].
    intros j e' Hj. lia.
  - destruct (querySelector path rest) as [k | ]; [|discriminate].
    intros H. inversion H; subst. destruct (IH k eq_refl) as [x [Hx [Sx Hfirst]]].
    exists x. split; [exact Hx|]. split; [exact Sx|].
    intros [ | j] e' Hj He'; simpl in He'.
    + inversion He'; subst. exact S.
    + apply (Hfirst j e'); [lia | exact He'].
Qed.

Lemma querySelector_None (path : string) (doc : document) :
  querySelector path doc = None <-> forall e, In e doc -> selects path e = false.
Proof.
  induction doc as [ | e rest IH]; simpl.
  - split; [intros _ e [] | reflexivity].
  - destruct (selects path e) eqn:S.
    + split; [discriminate|]. intros H. specialize (H e (or_introl eq_refl)). congruence.
    + destruct (querySelector path rest) as [k | ].
      * split; [discriminate|]. intros H.
        assert (N : None = None :> option nat) by reflexivity.
        destruct IH as [_ IH]. specialize (IH (fun x Hx => H x (or_intror Hx))). discriminate.
      * split; [|reflexivity]. intros _ x [Hx | Hx]; [subst; exact S|].
        apply (proj1 IH eq_refl). exact Hx.
Qed.

Lemma querySelector_update (path : string) (doc : document) (i : nat) :
  querySelector path (update i add_active doc) = querySelector path doc.
Proof.
  revert i. induction doc as [ | e rest IH]; intros [ | i]; simpl; try reflexivity.
  - rewrite selects_add_active. reflexivity.
  - rewrite IH. reflexivity.
Qed.

Lemma update_twice (i : nat) (doc : document) :
  update i add_active (update i add_active doc) = update i add_active doc.
Proof.
  revert i. induction doc as [ | e rest IH]; intros [ | i]; simpl; try reflexivity.
  - rewrite add_active_twice. reflexivity.
  - rewrite IH. reflexivity.
Qed.

(** X14. On a document without a [nav-link] whose href is the current
    path the handler changes nothing and raises no error. Otherwise it
    changes exactly one element, the first such link in tree order: that
    link gains the class [active] and keeps its href and its other
    classes; every other element, later links to the same path included,
    is left as it was. *)
Theorem handler_marks_first_link (path : string) (doc : document) :
  plain path = true ->
  exists doc',
    onDOMContentLoaded path doc = Some doc' /\
    List.length doc' = List.length doc /\
    ((forall e, In e doc -> selects path e = false) -> doc' = doc) /\
    forall i e,
      nth_error doc i = Some e -> selects path e = true ->
      (forall j e', (j < i)%nat -> nth_error doc j = Some e' -> selects path e' = false) ->
      nth_error doc' i = Some (add_active e) /\
      In "active" (classes (add_active e)) /\
      href (add_active e) = href e /\
      (forall c, In c (classes e) -> In c (classes (add_active e))) /\
      forall j, j <> i -> nth_error doc' j = nth_error doc j.
Proof.
  intros Hp. unfold onDOMContentLoaded. rewrite Hp.
  destruct (querySelector path doc) as [k | ] eqn:Q.
  - exists (update k add_active doc). split; [reflexivity|].
    split; [apply length_update|]. split.
    + intros Hnone. apply querySelector_None in Hnone. congruence.
    + intros i e Hi Si Hfirst.
      destruct (querySelector_Some path doc k Q) as [x [Hx [Sx Hkfirst]]].
      assert (k = i).
      { destruct (Nat.lt_trichotomy k i) as [L | [E | G]]; [|exact E|].
        - specialize (Hfirst k x L Hx). congruence.
        - specialize (Hkfirst i e G Hi). congruence. }
      subst k. split.
      { rewrite nth_error_update, Nat.eqb_refl, Hi. reflexivity. }
      split; [apply In_classList_add; right; reflexivity|].
      split; [reflexivity|]. split.
      { intros c Hc. apply In_classList_add. left. exact Hc. }
      intros j Hj. rewrite nth_error_update.
      destruct (Nat.eqb_spec i j); [congruence | reflexivity].
  - exists doc. split; [reflexivity|]. split; [reflexivity|]. split; [reflexivity|].
    intros i e Hi Si _. apply nth_error_In in Hi.
    rewrite (proj1 (querySelector_None path doc) Q e Hi) in Si. discriminate.
Qed.

Lemma handler_marks_first_link_witness :
  exists doc',
    onDOMContentLoaded "/oee"
      [mkElement ["nav-link"] (Some "/"); mkElement ["nav-link"] (Some "/oee")] = Some doc' /\
    nth_error doc' 1 = Some (add_active (mkElement ["nav-link"] (Some "/oee"))).
Proof.
  destruct (handler_marks_first_link "/oee"
              [mkElement ["nav-link"] (Some "/"); mkElement ["nav-link"] (Some "/oee")]
              eq_refl) as [doc' [E [_ [_ H]]]].
  exists doc'. split; [exact E|].
  apply (H 1%nat (mkElement ["nav-link"] (Some "/oee")) eq_refl eq_refl).
  intros [ | j] e' Hj He'; [inversion He'; reflexivity | lia].
Defined.

(** X15. The handler is idempotent: running it again on its own result,
    as when the script is included twice, changes nothing more. *)
Theorem handler_idempotent (path : string) (doc doc' : document) :
  onDOMContentLoaded path doc = Some doc' ->
  onDOMContentLoaded path doc' = Some doc'.
Proof.
  unfold onDOMContentLoaded. destruct (plain path); [|discriminate].
  intros H. inversion H as [E]. clear H.
  destruct (querySelector path doc) as [k | ] eqn:Q.
  - rewrite querySelector_update, Q, update_twice. reflexivity.
  - rewrite Q. reflexivity.
Qed.

Lemma handler_idempotent_witness :
  onDOMContentLoaded "/oee" [mkElement ["nav-link"; "active"] (Some "/oee")] =
  Some [mkElement ["nav-link"; "active"] (Some "/oee")].
Proof.
  apply (handler_idempotent "/oee" [mkElement ["nav-link"] (Some "/oee")]). reflexivity.
Defined.

(** X16. The handler never removes anything: every element keeps its
    position, its href and all its classes, and a class that an element
    has afterwards is one it had before or is [active]. In particular a
    link that was already marked [active] for another page stays marked. *)
Theorem handler_only_adds_active (path : string) (doc doc' : document) :
  onDOMContentLoaded path doc = Some doc' ->
  forall i e, nth_error doc i = Some e ->
    exists e', nth_error doc' i = Some e' /\
      href e' = href e /\
      (forall c, In c (classes e) -> In c (classes e')) /\
      (forall c, In c (classes e') -> In c (classes e) \/ c = "active").
Proof.
  unfold onDOMContentLoaded. destruct (plain path); [|discriminate].
  intros H i e Hi. inversion H as [E]. clear H.
  assert (Same : exists e', Some e = Some e' /\ href e' = href e /\
            (forall c, In c (classes e) -> In c (classes e')) /\
            (forall c, In c (classes e') -> In c (classes e) \/ c = "active")).
  { exists e. repeat split; auto. }
  destruct (querySelector path doc) as [k | ]; [|rewrite Hi; exact Same].
  rewrite nth_error_update, Hi. destruct (Nat.eqb k i); [|exact Same].
  exists (add_active e). split; [reflexivity|]. split; [reflexivity|]. split.
  - intros c Hc. apply In_classList_add. left. exact Hc.
  - intros c Hc. apply In_classList_add in Hc. exact Hc.
Qed.

Lemma handler_only_adds_active_witness :
  exists e', nth_error [mkElement ["nav-link"; "active"] (Some "/");
                        mkElement ["nav-link"; "active"] (Some "/oee")] 0 = Some e' /\
    In "active" (classes e').
Proof.
  destruct (handler_only_adds_active "/oee"
              [mkElement ["nav-link"; "active"] (Some "/"); mkElement ["nav-link"] (Some "/oee")]
              [mkElement ["nav-link"; "active"] (Some "/");
               mkElement ["nav-link"; "active"] (Some "/oee")]
              eq_refl 0%nat (mkElement ["nav-link"; "active"] (Some "/")) eq_refl)
    as [e' [He' [_ [Hkeep _]]]].
  exists e'. split; [exact He'|]. apply Hkeep. right. left. reflexivity.
Defined.

End NavFacts.
